(** * The run-time hooks of the infinite-loop detector

    A shallow embedding of [src/infiniteLoops/runtime.ts]: the hook
    functions that instrumented programs call, the dispatch policy that
    decides when the accumulated history is analysed, the stream heuristic
    behind the [is_null] builtin, the construction of the builtin table and
    the driver [testForInfiniteLoop].

    JavaScript values are an inductive type; the mutable [State] object is
    threaded explicitly; exceptions are a constructor of the result type.
    The modules that [runtime.ts] imports ([symbolic], [state], [detect],
    [stdlib/list], [astCreator], the parser and the instrumenter) are either
    modelled from their description or taken as the operations of a host
    interface. *)

From stdpp Require Import gmap strings list.
From Stdlib Require Import ZArith Lia.

Local Open Scope string_scope.
Local Open Scope list_scope.
Local Open Scope Z_scope.

(** ** Syntax trees ([estree]) *)

Inductive literal :=
| LBool (b : bool)
| LNumber (n : Z)
| LString (s : string)
| LNull.

(** The [type] field of a node is its constructor. *)
Inductive Expression :=
| Literal (v : literal)
| Identifier (name : string)
| UnaryExpression (operator : string) (argument : Expression)
| BinaryExpression (operator : string) (left right : Expression).

Record Position := { line : Z; column : Z }.
Record SourceLocation := { loc_start : Position; loc_end : Position }.

(** Modelled from the spec: [create.unaryExpression] of [utils/astCreator],
    which builds the unary node of an operator and its operand. *)
Definition unaryExpression (operator : string) (argument : Expression) : Expression :=
  UnaryExpression operator argument.

Definition isLiteral (e : Expression) : bool :=
  match e with Literal _ => true | _ => false end.

(** ** Values *)

(** Numbers are integers here: the hooks only count and compare.
    A hybrid is the object [{type, concrete, symbolic, negation, invalid}];
    [runtime.ts] reads exactly these five fields.  Function values are
    either opaque functions of the host (program functions, the original
    builtins, the methods every object inherits) or one of the closures
    that [runtime.ts] itself creates.  [VObject] stands for an object of
    the host that is neither an array, a function nor a hybrid. *)
#[warnings="-register-all"]
Inductive value :=
| VUndefined
| VNull
| VBool (b : bool)
| VNumber (n : Z)
| VString (s : string)
| VArray (elems : list value)
| VFunction (f : fn)
| VObject (tag : string)
| VHybrid (h_type : string) (concrete : value) (symbolic : Expression)
          (negation : option Expression) (invalid : bool)
with fn :=
| HostFunction (id : nat)
| nothingFunction
| is_null_special
| ObjectPrototypeMember (name : string)
| BuiltinWrapper (original : value)
| ArgWrapper (arg : fn).

(** [typeof v === 'function'] *)
Definition isFunction (v : value) : bool :=
  match v with VFunction _ => true | _ => false end.

(** JavaScript truthiness: [!v] is [negb (truthy v)]. *)
Definition truthy (v : value) : bool :=
  match v with
  | VUndefined | VNull => false
  | VBool b => b
  | VNumber n => negb (n =? 0)
  | VString s => negb (String.eqb s "")
  | VArray _ | VFunction _ | VObject _ | VHybrid _ _ _ _ _ => true
  end.

(** ** The [symbolic] module *)

(** Modelled from the spec: [sym.isHybrid], true of the values that carry a
    symbolic expression. *)
Definition isHybrid (v : value) : bool :=
  match v with VHybrid _ _ _ _ _ => true | _ => false end.

(** The hybrids that [saveBoolIfHybrid] treats as such: those whose [type]
    is ['value']. *)
Definition isHybridValue (v : value) : bool :=
  match v with
  | VHybrid h_type _ _ _ _ => String.eqb h_type "value"
  | _ => false
  end.

(** Modelled from the spec: [sym.shallowConcretize], which "strips
    symbolism, returning the underlying concrete value". *)
Definition shallowConcretize (v : value) : value :=
  match v with
  | VHybrid _ concrete _ _ _ => concrete
  | _ => v
  end.

(** Modelled from the spec: [sym.deepConcretizeInplace], which "recursively
    strips symbolism from composite/mutable structures (e.g., list cells)".
    The source overwrites the cells of the arrays it walks; values are not
    shared here, so the stripped value is returned. *)
Fixpoint deepConcretizeInplace (v : value) : value :=
  match v with
  | VHybrid _ concrete _ _ _ => deepConcretizeInplace concrete
  | VArray elems => VArray (map deepConcretizeInplace elems)
  | _ => v
  end.

(** Modelled from the spec: [sym.hybridizeNamed], which "wraps a concrete
    value read from a named variable into Symbolic form, attaching an
    identifier-expression referencing [name]"; a value that is already a
    hybrid is "the existing hybrid" and is returned as it is, and
    "functions are never hybridized". *)
Definition hybridizeNamed (name : string) (v : value) : value :=
  match v with
  | VHybrid _ _ _ _ _ => v
  | VFunction _ => v
  | _ => VHybrid "value" v (Identifier name) None false
  end.

(** ** The list library ([stdlib/list]) *)

(** Modelled from the spec: [stdList.is_null], the null test of list and
    stream structures. *)
Definition list_is_null (v : value) : bool :=
  match v with VNull => true | _ => false end.

(** Modelled from the spec: [stdList.is_pair]; a pair is a two-element array,
    whose tail the source reads as [xs[1]]. *)
Definition list_is_pair (v : value) : bool :=
  match v with VArray [_; _] => true | _ => false end.

(** [stdList.is_pair(xs) ? xs[1] : undefined] *)
Definition tailOf (v : value) : value :=
  match v with VArray [_; t] => t | _ => VUndefined end.

(** ** Errors ([detect.InfiniteLoopError], [Error]) *)

Record InfiniteLoopError := {
  message : string;
  functionName : option string;
  location : option SourceLocation
}.

(** [error.location = loc] *)
Definition setLocation (loc : option SourceLocation) (e : InfiniteLoopError) :=
  {| message := message e; functionName := functionName e; location := loc |}.

(** What a [throw] carries: [new Error(msg)], an [InfiniteLoopError], or the
    [TypeError] of calling something that is not a function. *)
Inductive exn :=
| Error (msg : string)
| InfiniteLoop (e : InfiniteLoopError)
| TypeError (msg : string).

(** How a computation ends: it returns, it throws, or the bound on the number
    of steps of the model is reached before it does either. *)
Inductive result (A : Type) :=
| Returned (a : A)
| Thrown (e : exn)
| OutOfFuel.
Arguments Returned {A} a.
Arguments Thrown {A} e.
Arguments OutOfFuel {A}.

(** ** The execution state ([state.State]) *)

(** The fields are those that [runtime.ts] reads and writes, together with
    [functionTrackers], the "mapping from function name to its Tracker" that
    [enterFunction] maintains.  A tracker is a [number[]] of stack positions.
    Whatever else the class keeps (the stack frames themselves, the recorded
    paths, the stack of function names, the clock) is [hidden].  The
    thresholds and the counts are numbers of the source; they are integers
    here. *)
Record State (Hidden : Type) := mkState {
  threshold : Z;
  streamThreshold : Z;
  variablesModified : gmap string value;
  variablesToReset : gset string;
  loopStack : list (list nat);
  functionTrackers : gmap string (list nat);
  streamMode : bool;
  streamLastFunction : option string;
  streamCounts : gmap string Z;
  lastLocation : option SourceLocation;
  functionWasPassedAsArgument : bool;
  hidden : Hidden
}.
Arguments mkState {Hidden}.
Arguments threshold {Hidden} s.
Arguments streamThreshold {Hidden} s.
Arguments variablesModified {Hidden} s.
Arguments variablesToReset {Hidden} s.
Arguments loopStack {Hidden} s.
Arguments functionTrackers {Hidden} s.
Arguments streamMode {Hidden} s.
Arguments streamLastFunction {Hidden} s.
Arguments streamCounts {Hidden} s.
Arguments lastLocation {Hidden} s.
Arguments functionWasPassedAsArgument {Hidden} s.
Arguments hidden {Hidden} s.

Section Setters.
Context {Hidden : Type}.
Implicit Type s : State Hidden.

Definition set_variablesModified (m : gmap string value) s :=
  mkState (threshold s) (streamThreshold s) m (variablesToReset s)
    (loopStack s) (functionTrackers s) (streamMode s) (streamLastFunction s)
    (streamCounts s) (lastLocation s) (functionWasPassedAsArgument s) (hidden s).

Definition set_variablesToReset (r : gset string) s :=
  mkState (threshold s) (streamThreshold s) (variablesModified s) r
    (loopStack s) (functionTrackers s) (streamMode s) (streamLastFunction s)
    (streamCounts s) (lastLocation s) (functionWasPassedAsArgument s) (hidden s).

Definition set_loopStack (l : list (list nat)) s :=
  mkState (threshold s) (streamThreshold s) (variablesModified s) (variablesToReset s)
    l (functionTrackers s) (streamMode s) (streamLastFunction s)
    (streamCounts s) (lastLocation s) (functionWasPassedAsArgument s) (hidden s).

Definition set_functionTrackers (t : gmap string (list nat)) s :=
  mkState (threshold s) (streamThreshold s) (variablesModified s) (variablesToReset s)
    (loopStack s) t (streamMode s) (streamLastFunction s)
    (streamCounts s) (lastLocation s) (functionWasPassedAsArgument s) (hidden s).

Definition set_streamMode (b : bool) s :=
  mkState (threshold s) (streamThreshold s) (variablesModified s) (variablesToReset s)
    (loopStack s) (functionTrackers s) b (streamLastFunction s)
    (streamCounts s) (lastLocation s) (functionWasPassedAsArgument s) (hidden s).

Definition set_streamLastFunction (f : option string) s :=
  mkState (threshold s) (streamThreshold s) (variablesModified s) (variablesToReset s)
    (loopStack s) (functionTrackers s) (streamMode s) f
    (streamCounts s) (lastLocation s) (functionWasPassedAsArgument s) (hidden s).

Definition set_streamCounts (c : gmap string Z) s :=
  mkState (threshold s) (streamThreshold s) (variablesModified s) (variablesToReset s)
    (loopStack s) (functionTrackers s) (streamMode s) (streamLastFunction s)
    c (lastLocation s) (functionWasPassedAsArgument s) (hidden s).

Definition set_lastLocation (l : option SourceLocation) s :=
  mkState (threshold s) (streamThreshold s) (variablesModified s) (variablesToReset s)
    (loopStack s) (functionTrackers s) (streamMode s) (streamLastFunction s)
    (streamCounts s) l (functionWasPassedAsArgument s) (hidden s).

Definition set_functionWasPassedAsArgument (b : bool) s :=
  mkState (threshold s) (streamThreshold s) (variablesModified s) (variablesToReset s)
    (loopStack s) (functionTrackers s) (streamMode s) (streamLastFunction s)
    (streamCounts s) (lastLocation s) b (hidden s).

Definition set_hidden (h : Hidden) s :=
  mkState (threshold s) (streamThreshold s) (variablesModified s) (variablesToReset s)
    (loopStack s) (functionTrackers s) (streamMode s) (streamLastFunction s)
    (streamCounts s) (lastLocation s) (functionWasPassedAsArgument s) h.
End Setters.

(** ** The host interface *)

(** The methods of [State] that only touch its hidden part, the analysis of
    [detect.ts] and the application of a function of the program.  A method
    sees the whole state and yields the new hidden part, so it cannot change
    a field of [runtime.ts].  [checkForInfiniteLoop] yields the exception it
    throws, if any.  An applied function may change any field, throw, or not
    return at all ([OutOfFuel]). *)
Class Host := {
  Hidden : Type;
  hasTimedOut : State Hidden -> bool;
  getLastFunctionName : State Hidden -> string;
  setInvalidPathHidden : State Hidden -> Hidden;
  savePathHidden : Expression -> State Hidden -> Hidden;
  newStackFrameHidden : State Hidden -> nat * Hidden;
  saveArgsInTransitionHidden :
    list (string * value) -> list nat -> State Hidden -> Hidden;
  enterFunctionHidden : string -> State Hidden -> Hidden;
  returnLastFunctionHidden : State Hidden -> Hidden;
  exitLoopHidden : State Hidden -> Hidden;
  checkForInfiniteLoop :
    list nat -> State Hidden -> option string -> option exn * Hidden;
  callHost : fn -> list value -> State Hidden -> result value * State Hidden
}.

(** ** Computations *)

(** The calls of a hook that the properties below speak about are recorded
    in a trace next to the state; the source keeps no such record. *)
Inductive event :=
| EvDispatch (stackPositions : list nat) (name : option string)
| EvCheck (stackPositions : list nat) (name : option string)
| EvForce (tail : value).

Section Monad.
Context `{Host}.

Record World := mkWorld { state : State Hidden; trace : list event }.

Definition M (A : Type) : Type := World -> result A * World.

Definition ret {A} (a : A) : M A := fun w => (Returned a, w).

Definition bind {A B} (m : M A) (k : A -> M B) : M B :=
  fun w =>
    match m w with
    | (Returned a, w') => k a w'
    | (Thrown e, w') => (Thrown e, w')
    | (OutOfFuel, w') => (OutOfFuel, w')
    end.

Definition throw {A} (e : exn) : M A := fun w => (Thrown e, w).
Definition outOfFuel {A} : M A := fun w => (OutOfFuel, w).
Definition getState : M (State Hidden) := fun w => (Returned (state w), w).
Definition modifyState (f : State Hidden -> State Hidden) : M unit :=
  fun w => (Returned tt, mkWorld (f (state w)) (trace w)).
Definition emit (e : event) : M unit :=
  fun w => (Returned tt, mkWorld (state w) (trace w ++ [e])).

(** A call into the host: its outcome and its effect on the state. *)
Definition liftHost {A} (f : State Hidden -> result A * State Hidden) : M A :=
  fun w => let '(r, s) := f (state w) in (r, mkWorld s (trace w)).
End Monad.

Notation "x <- m ;; k" := (bind m (fun x => k))
  (at level 100, m at next level, right associativity).
Notation "m ;;; k" := (bind m (fun _ => k))
  (at level 100, right associativity).

(** ** Methods of [State] *)

Section StateMethods.
Context `{Host}.
Implicit Type s : State Hidden.

(** Modelled from the spec: [State.cleanUpVariables], which "marks every
    tracked variable name as pending-reset". *)
Definition cleanUpVariables s : State Hidden :=
  set_variablesToReset (variablesToReset s ∪ dom (variablesModified s)) s.

Definition setInvalidPath s : State Hidden := set_hidden (setInvalidPathHidden s) s.

Definition savePath (e : Expression) s : State Hidden :=
  set_hidden (savePathHidden e s) s.

Definition saveArgsInTransition (args : list (string * value)) (tracker : list nat) s
  : State Hidden :=
  set_hidden (saveArgsInTransitionHidden args tracker s) s.

Definition newStackFrame : M nat :=
  fun w =>
    let '(frame, h) := newStackFrameHidden (state w) in
    (Returned frame, mkWorld (set_hidden h (state w)) (trace w)).

(** Modelled from the spec: [State.enterFunction], which "looks up or
    creates the Tracker for [name]; [isFirstCall] is true exactly when no
    prior StackFrame exists for this name in this run".  The array it
    returns is the one kept in the table: the hooks read its contents here
    and push on it with [trackerPush]. *)
Definition enterFunction (name : string) : M (list nat * bool) :=
  fun w =>
    let s := state w in
    let tracker := default [] (functionTrackers s !! name) in
    let s' := set_functionTrackers (<[name := tracker]> (functionTrackers s)) s in
    (Returned (tracker, bool_decide (tracker = [])),
     mkWorld (set_hidden (enterFunctionHidden name s) s') (trace w)).

Definition returnLastFunction s : State Hidden :=
  set_hidden (returnLastFunctionHidden s) s.

(** Modelled from the spec: [State.exitLoop], which "pops the innermost
    loop Tracker". *)
Definition State_exitLoop s : State Hidden :=
  set_hidden (exitLoopHidden s) (set_loopStack (tail (loopStack s)) s).

(** [tracker.push(frame)] on the tracker of [name]. *)
Definition trackerPush (name : string) (frame : nat) s : State Hidden :=
  set_functionTrackers
    (<[name := default [] (functionTrackers s !! name) ++ [frame]]> (functionTrackers s)) s.
End StateMethods.

(** ** The hooks of [runtime.ts] *)

Section Hooks.
Context `{Host}.
Implicit Type state : State Hidden.

Definition checkTimeout : M unit :=
  s <- getState;;
  if hasTimedOut s then throw (Error "timeout") else ret tt.

Definition hybridize (originalValue : value) (name : string) state : value :=
  if isFunction originalValue then originalValue
  else
    let value :=
      if bool_decide (name ∈ variablesToReset state)
      then deepConcretizeInplace originalValue
      else originalValue in
    hybridizeNamed name value.

Definition saveVarIfHybrid (v : value) (name : string) state : value * State Hidden :=
  let state := set_variablesToReset (variablesToReset state ∖ {[name]}) state in
  let state :=
    if isHybrid v
    then set_variablesModified (<[name := v]> (variablesModified state)) state
    else state in
  (v, state).

Definition saveBoolIfHybrid (v : value) state : value * State Hidden :=
  match v with
  | VHybrid h_type concrete symbolic negation invalid =>
      if String.eqb h_type "value" then
        if invalid then (shallowConcretize v, setInvalidPath state)
        else
          let state :=
            if negb (isLiteral symbolic) then
              let theExpr :=
                if negb (truthy concrete)
                then match negation with
                     | Some n => n
                     | None => unaryExpression "!" symbolic
                     end
                else symbolic in
              savePath theExpr state
            else state in
          (shallowConcretize v, state)
      else (v, setInvalidPath state)
  | _ => (v, setInvalidPath state)
  end.

(** The closure keeps [arg]; calling it is [callFn (ArgWrapper arg)]. *)
Definition wrapArgIfFunction (arg : value) : value :=
  match arg with
  | VFunction f => VFunction (ArgWrapper f)
  | _ => arg
  end.

(** *** Calling a function value *)

(** [is_null] reached through an ordinary call: its second parameter is
    then an ordinary value.  A [State] is not a value of the program here,
    so a truthy second argument has no [getLastFunctionName] method; the
    call that does pass the state is [is_null] below. *)
Definition is_null_plain (args : list value) : M value :=
  let xs := shallowConcretize (nth 0 args VUndefined) in
  if truthy (nth 1 args VUndefined) && isFunction (tailOf xs)
  then throw (TypeError "state.getLastFunctionName is not a function")
  else ret (VBool (list_is_null xs)).

Fixpoint callFn (f : fn) (args : list value) {struct f} : M value :=
  match f with
  | HostFunction _ | ObjectPrototypeMember _ => liftHost (callHost f args)
  | nothingFunction => ret (VFunction nothingFunction)
  | is_null_special => is_null_plain args
  | BuiltinWrapper original =>
      match original with
      | VFunction g => callFn g (map shallowConcretize args)
      | _ => throw (TypeError "not a function")
      end
  | ArgWrapper arg =>
      modifyState (set_functionWasPassedAsArgument true);;;
      callFn arg args
  end.

Definition callValue (v : value) (args : list value) : M value :=
  match v with
  | VFunction f => callFn f args
  | _ => throw (TypeError "not a function")
  end.

(** [v(args1)(args2)...]: the result of each call is called in turn. *)
Fixpoint callChain (v : value) (argss : list (list value)) : M value :=
  match argss with
  | [] => ret v
  | args :: rest => r <- callValue v args;; callChain r rest
  end.

(** *** The dispatch policy *)

(** The [while] loop; [fuel] bounds its iterations. *)
Fixpoint dispatchLoop (fuel : nat) (checkpoint : Z) (stackPositions : list nat)
    (functionName : option string) : M unit :=
  match fuel with
  | O => outOfFuel
  | S fuel' =>
      if checkpoint <=? Z.of_nat (length stackPositions) then
        (if Z.of_nat (length stackPositions) =? checkpoint then
           emit (EvCheck stackPositions functionName);;;
           (fun w =>
              let '(e, h) := checkForInfiniteLoop stackPositions (state w) functionName in
              (match e with Some e => Thrown e | None => Returned tt end,
               mkWorld (set_hidden h (state w)) (trace w)))
         else ret tt);;;
        dispatchLoop fuel' (checkpoint * 2) stackPositions functionName
      else ret tt
  end.

Definition dispatchIfMeetsThreshold (fuel : nat) (stackPositions : list nat)
    (functionName : option string) : M unit :=
  emit (EvDispatch stackPositions functionName);;;
  s <- getState;;
  dispatchLoop fuel (threshold s) stackPositions functionName.

(** *** Function and loop boundaries *)

Definition preFunction (fuel : nat) (name : string) (args : list (string * value))
  : M unit :=
  checkTimeout;;;
  s <- getState;;
  let newName := if functionWasPassedAsArgument s then "*" +:+ name else name in
  entered <- enterFunction newName;;
  let tracker := fst entered in
  let firstIteration := snd entered in
  (if negb firstIteration then
     modifyState cleanUpVariables;;;
     modifyState (saveArgsInTransition args tracker);;;
     s <- getState;;
     if negb (functionWasPassedAsArgument s) then
       let previousIterations := removelast tracker in
       dispatchIfMeetsThreshold fuel previousIterations (Some name)
     else ret tt
   else ret tt);;;
  frame <- newStackFrame;;
  modifyState (trackerPush newName frame);;;
  modifyState (set_functionWasPassedAsArgument false).

Definition returnFunction (v : value) : M value :=
  modifyState cleanUpVariables;;;
  s <- getState;;
  (if negb (streamMode s) then modifyState returnLastFunction else ret tt);;;
  ret v.

Definition enterLoop : M unit :=
  frame <- newStackFrame;;
  modifyState (fun s => set_loopStack ([frame] :: loopStack s) s).

(** [state.loopStack[0]] of an empty stack is [undefined], whose [slice]
    cannot be called. *)
Definition postLoop (fuel : nat) (ignoreMe : value) : M value :=
  checkTimeout;;;
  s <- getState;;
  match loopStack s with
  | [] => throw (TypeError "previousIterations is undefined")
  | previousIterations :: _ =>
      dispatchIfMeetsThreshold fuel (removelast previousIterations) None;;;
      modifyState cleanUpVariables;;;
      frame <- newStackFrame;;
      modifyState (fun s =>
        match loopStack s with
        | top :: rest => set_loopStack ((top ++ [frame]) :: rest) s
        | [] => s
        end);;;
      ret ignoreMe
  end.

Definition exitLoop : M unit :=
  modifyState cleanUpVariables;;;
  modifyState State_exitLoop.

Definition trackLoc (loc : option SourceLocation) (ignoreMe : option value) : M value :=
  modifyState (set_lastLocation loc);;;
  match ignoreMe with
  | Some f => callValue f []
  | None => ret VUndefined
  end.

(** *** The stream heuristic *)

(** The [for] loop of [testIfInfiniteStream]; it reads [state.threshold]
    at every test, and [fuel] bounds its iterations. *)
Fixpoint streamLoop (fuel : nat) (i : Z) (next : value) : M unit :=
  match fuel with
  | O => outOfFuel
  | S fuel' =>
      s <- getState;;
      if i <=? threshold s then
        if list_is_null next then ret tt
        else
          let nextTail := tailOf next in
          if isFunction nextTail then
            emit (EvForce nextTail);;;
            forced <- callValue nextTail [];;
            streamLoop fuel' (i + 1) (shallowConcretize forced)
          else ret tt
      else ret tt
  end.

Definition testIfInfiniteStream (fuel : nat) (stream : value) : M unit :=
  streamLoop fuel 0 stream;;;
  throw (Error "timeout").

(** [builtinSpecialCases.is_null(maybeHybrid, state)]; [withState] tells
    whether the caller passed the state. *)
Definition is_null (fuel : nat) (maybeHybrid : value) (withState : bool) : M value :=
  let xs := shallowConcretize maybeHybrid in
  let conc := list_is_null xs in
  let theTail := tailOf xs in
  let isStream := isFunction theTail in
  if withState && isStream then
    s <- getState;;
    let lastFunction := getLastFunctionName s in
    (if streamMode s && bool_decide (streamLastFunction s = Some lastFunction) then
       emit (EvForce theTail);;;
       forced <- callValue theTail [];;
       testIfInfiniteStream fuel (shallowConcretize forced)
     else
       let count := default 1 (streamCounts s !! lastFunction) in
       (if count >? streamThreshold s then
          modifyState (set_streamMode true);;;
          modifyState (set_streamLastFunction (Some lastFunction))
        else ret tt);;;
       modifyState (fun s =>
         set_streamCounts (<[lastFunction := count + 1]> (streamCounts s)) s));;;
    ret VUndefined
  else ret (VBool conc).
End Hooks.

(** ** The builtin table *)

(** The names every object literal inherits from [Object.prototype]: the
    lookup [builtinSpecialCases[name]] finds them too. *)
Definition objectPrototypeNames : list string :=
  ["constructor"; "hasOwnProperty"; "isPrototypeOf"; "propertyIsEnumerable";
   "toLocaleString"; "toString"; "valueOf"; "__defineGetter__";
   "__defineSetter__"; "__lookupGetter__"; "__lookupSetter__"].

(** [builtinSpecialCases[name]], [None] for [undefined]. *)
Definition builtinSpecialCases (name : string) : option value :=
  if String.eqb name "is_null" then Some (VFunction is_null_special)
  else if String.eqb name "display" then Some (VFunction nothingFunction)
  else if String.eqb name "display_list" then Some (VFunction nothingFunction)
  else if bool_decide (name ∈ objectPrototypeNames)
       then Some (VFunction (ObjectPrototypeMember name))
  else if String.eqb name "__proto__" then Some (VObject "Object.prototype")
  else None.

(** A [Map] is a finite map here: the order of its keys is not kept. *)
Definition prepareBuiltins (oldBuiltins : gmap string value) : gmap string value :=
  let newBuiltins :=
    map_imap (fun name fun_ =>
      Some (match builtinSpecialCases name with
            | Some specialCase => specialCase
            | None => VFunction (BuiltinWrapper fun_)
            end)) oldBuiltins in
  <["undefined" := VUndefined]> newBuiltins.

(** ** The driver *)

(** The parser, the instrumenter, the context and the evaluation of the
    instrumented code with the hooks, the state and the builtins injected.
    The source hands every call of the parser the one context object of the
    run; a front end gives the outcome of parsing a text, what a parse
    leaves in that context being left aside. *)
Class Frontend `{Host} := {
  Program : Type;
  InstrumentedCode : Type;
  parse : string -> option Program;
  prelude : Program;
  nativeBuiltins : gmap string value;
  instrument : list Program -> Program -> list string -> InstrumentedCode;
  newState : State Hidden;
  sandboxedRun : InstrumentedCode -> gmap string value -> M value
}.

Section Driver.
Context `{Frontend}.

(** [None] is [undefined].  The function itself throws nothing; it does
    not return when the run does not. *)
Definition testForInfiniteLoop (code : string) (previousCodeStack : list string)
  : result (option InfiniteLoopError) :=
  let previous := omap parse previousCodeStack ++ [prelude] in
  match parse code with
  | None => Returned None
  | Some program =>
      let newBuiltins := prepareBuiltins nativeBuiltins in
      let instrumentedCode :=
        instrument previous program (map fst (map_to_list newBuiltins)) in
      let '(r, w) := sandboxedRun instrumentedCode newBuiltins (mkWorld newState []) in
      match r with
      | Thrown (InfiniteLoop error) =>
          Returned (Some (match lastLocation (state w) with
                          | Some loc => setLocation (Some loc) error
                          | None => error
                          end))
      | Thrown _ | Returned _ => Returned None
      | OutOfFuel => OutOfFuel
      end
  end.
End Driver.

(** ** Notions used in the statements *)

Section Notions.
Context `{Host}.
Implicit Type s : State Hidden.

(** One run of the analysis on [stackPositions], in world [w]. *)
Definition checked (stackPositions : list nat) (name : option string) (w : World)
  : result unit * World :=
  let '(e, h) := checkForInfiniteLoop stackPositions (state w) name in
  (match e with Some e => Thrown e | None => Returned tt end,
   mkWorld (set_hidden h (state w)) (trace w ++ [EvCheck stackPositions name])).

(** [s'] differs from [s] in the hidden part at most. *)
Definition sameFields s s' : Prop := s' = set_hidden (hidden s') s.

(** The end of [preFunction]: a frame is taken and pushed on the tracker,
    and the flag is put off. *)
Definition framePushed (newName : string) s : State Hidden :=
  let '(frame, h) := newStackFrameHidden s in
  set_functionWasPassedAsArgument false (trackerPush newName frame (set_hidden h s)).

(** The host leaves the sample threshold alone when it runs a function. *)
Definition hostKeepsThreshold : Prop :=
  forall f args s, threshold (snd (callHost f args s)) = threshold s.

End Notions.

Section DriverNotions.
Context `{Frontend}.

(** The run of the instrumented code that [testForInfiniteLoop] starts. *)
Definition driverRun (program : Program) (previousCodeStack : list string)
  : result value * World :=
  let newBuiltins := prepareBuiltins nativeBuiltins in
  sandboxedRun
    (instrument (omap parse previousCodeStack ++ [prelude]) program
       (map fst (map_to_list newBuiltins)))
    newBuiltins (mkWorld newState []).
End DriverNotions.


(** A decidable proposition about concrete data, settled by evaluation. *)
Ltac decide_by_computation := apply (bool_decide_unpack _); vm_compute; exact I.

(** ** A small host, for running the hooks on concrete inputs *)

Module Demo.
(** What this host keeps in the hidden part of the state: the recorded
    path ([None] once invalid), the number of frames taken, the stack of
    function names and whether the budget is spent. *)
Record hidden_state := {
  paths : option (list Expression);
  frames : nat;
  functions : list string;
  timedOut : bool
}.

Definition initialHidden (spent : bool) : hidden_state :=
  {| paths := Some []; frames := 0; functions := []; timedOut := spent |}.

Definition detected : InfiniteLoopError :=
  {| message := "no base case"; functionName := Some "f"; location := None |}.

(** The functions of the program: function 0 is the tail of the infinite
    stream of ones, function 1 the tail of a stream that ends there,
    function 2 throws a detection, function 3 does not return; any other
    returns its first argument. *)
Definition call (f : fn) (args : list value) (s : State hidden_state)
  : result value * State hidden_state :=
  match f with
  | HostFunction 0 => (Returned (VArray [VNumber 1; VFunction (HostFunction 0)]), s)
  | HostFunction 1 => (Returned VNull, s)
  | HostFunction 2 => (Thrown (InfiniteLoop detected), s)
  | HostFunction 3 => (OutOfFuel, s)
  | _ => (Returned (nth 0 args VUndefined), s)
  end.

#[global] Instance host : Host := {|
  Hidden := hidden_state;
  hasTimedOut s := timedOut (hidden s);
  getLastFunctionName s := hd "" (functions (hidden s));
  setInvalidPathHidden s :=
    {| paths := None; frames := frames (hidden s);
       functions := functions (hidden s); timedOut := timedOut (hidden s) |};
  savePathHidden e s :=
    {| paths := option_map (fun p => p ++ [e]) (paths (hidden s));
       frames := frames (hidden s);
       functions := functions (hidden s); timedOut := timedOut (hidden s) |};
  newStackFrameHidden s :=
    (frames (hidden s),
     {| paths := paths (hidden s); frames := S (frames (hidden s));
        functions := functions (hidden s); timedOut := timedOut (hidden s) |});
  saveArgsInTransitionHidden _ _ s := hidden s;
  enterFunctionHidden name s :=
    {| paths := paths (hidden s); frames := frames (hidden s);
       functions := name :: functions (hidden s); timedOut := timedOut (hidden s) |};
  returnLastFunctionHidden s :=
    {| paths := paths (hidden s); frames := frames (hidden s);
       functions := tail (functions (hidden s)); timedOut := timedOut (hidden s) |};
  exitLoopHidden s := hidden s;
  checkForInfiniteLoop _ s _ := (None, hidden s);
  callHost := call
|}.

(** A fresh state with the given thresholds. *)
Definition initialState (threshold streamThreshold : Z) (spent : bool)
  : State hidden_state :=
  mkState threshold streamThreshold ∅ ∅ [] ∅ false None ∅ None false
    (initialHidden spent).

Definition ones : value := VArray [VNumber 1; VFunction (HostFunction 0)].

(** A state in the middle of function [consume], and the same state with
    stream mode on for that function. *)
Definition consuming (threshold streamThreshold : Z) : State hidden_state :=
  set_hidden
    {| paths := Some []; frames := 0; functions := ["consume"]; timedOut := false |}
    (initialState threshold streamThreshold false).

Definition probing (threshold streamThreshold : Z) : State hidden_state :=
  set_streamLastFunction (Some "consume")
    (set_streamMode true (consuming threshold streamThreshold)).

(** A hybrid number [x + 1] and a hybrid array. *)
Definition hybridSum : value :=
  VHybrid "value" (VNumber 1)
    (BinaryExpression "+" (Identifier "x") (Literal (LNumber 1))) None false.

Definition hybridArray : value :=
  VHybrid "array" (VArray []) (Identifier "xs") None false.

Definition here : SourceLocation :=
  {| loc_start := {| line := 3; column := 0 |}; loc_end := {| line := 3; column := 9 |} |}.

(** A front end in which a program is its source text and is run by name:
    [detected] tracks a location and raises a detection, [slow] tracks a
    location and enters a function, [unlocated] raises a detection with no
    location tracked; the empty text does not parse and any other program
    just returns.  [spent] tells whether the
    budget of the run is spent when the first hook is reached. *)
Definition run (code : string) : M value :=
  if String.eqb code "detected" then
    trackLoc (Some here) None;;; throw (InfiniteLoop detected)
  else if String.eqb code "slow" then
    trackLoc (Some here) None;;; preFunction 5 "f" [];;; ret VUndefined
  else if String.eqb code "unlocated" then
    throw (InfiniteLoop detected)
  else ret VUndefined.

#[global] Instance frontend (spent : bool) : Frontend := {|
  Program := string;
  InstrumentedCode := string;
  parse code := if String.eqb code "" then None else Some code;
  prelude := "prelude";
  nativeBuiltins := {["is_null" := VFunction (HostFunction 8)]};
  instrument _ program _ := program;
  newState := initialState 2 1 spent;
  sandboxedRun code _ := run code
|}.
End Demo.

(** ** Further notions and a second host *)

Section MoreNotions.
Context `{Host}.

(** [n] null tests of the same value in a row, the state passed. *)
Fixpoint nullTests (fuel : nat) (maybeHybrid : value) (n : nat) : M unit :=
  match n with
  | O => ret tt
  | S n' => is_null fuel maybeHybrid true;;; nullTests fuel maybeHybrid n'
  end.

(** A stream cell that is not null and whose tail is a function of the
    host. *)
Definition isEndlessCell (v : value) : Prop :=
  list_is_null v = false /\ exists id, tailOf v = VFunction (HostFunction id).

(** Every function of the host returns such a cell: every stream of the
    host goes on for ever. *)
Definition hostEndless : Prop :=
  forall id args s, exists v s',
    callHost (HostFunction id) args s = (Returned v, s') /\
    isEndlessCell (shallowConcretize v).

(** The state after [n] null tests that only count. *)
Definition countedState (f : string) (count : Z) (n : nat) (s : State Hidden)
  : State Hidden :=
  set_streamCounts (<[f := count + Z.of_nat n]> (streamCounts s))
    (if count + Z.of_nat n - 1 >? streamThreshold s
     then set_streamLastFunction (Some f) (set_streamMode true s)
     else s).

(** The name of the function being run is read off the hidden part of the
    state only. *)
Definition nameFromHidden : Prop :=
  forall s s' : State Hidden, hidden s = hidden s' ->
    getLastFunctionName s = getLastFunctionName s'.
End MoreNotions.

Module Endless.
(** A host all of whose functions return the next cell of the stream of
    ones, wrapped as a hybrid; the rest is as in [Demo]. *)
Definition call (f : fn) (args : list value) (s : State Demo.hidden_state)
  : result value * State Demo.hidden_state :=
  (Returned (VHybrid "array" (VArray [VNumber 1; VFunction (HostFunction 0)])
               (Identifier "s") None false), s).

Definition host : Host := {|
  Hidden := Demo.hidden_state;
  hasTimedOut s := Demo.timedOut (hidden s);
  getLastFunctionName s := hd "" (Demo.functions (hidden s));
  setInvalidPathHidden s := hidden s;
  savePathHidden _ s := hidden s;
  newStackFrameHidden s := (Demo.frames (hidden s), hidden s);
  saveArgsInTransitionHidden _ _ s := hidden s;
  enterFunctionHidden _ s := hidden s;
  returnLastFunctionHidden s := hidden s;
  exitLoopHidden s := hidden s;
  checkForInfiniteLoop _ s _ := (None, hidden s);
  callHost := call
|}.
End Endless.

Module Relocated.
(** A front end whose every program tracks the location [Demo.here], then
    tracks [undefined], then raises a detection that carries the location
    [origin]. *)
Definition origin : SourceLocation :=
  {| loc_start := {| line := 1; column := 0 |}; loc_end := {| line := 1; column := 4 |} |}.

Definition raised : InfiniteLoopError :=
  {| message := "cycle"; functionName := None; location := Some origin |}.

Definition frontend : Frontend (H := Demo.host) := {|
  Program := string;
  InstrumentedCode := string;
  parse code := Some code;
  prelude := "prelude";
  nativeBuiltins := ∅;
  instrument _ program _ := program;
  newState := Demo.initialState 2 1 false;
  sandboxedRun _ _ :=
    trackLoc (Some Demo.here) None;;; trackLoc None None;;; throw (InfiniteLoop raised)
|}.
End Relocated.

(** * Properties *)

(** ** Reading and writing variables *)

Section VariableHooks.
Context `{Host}.
Implicit Type state : State Hidden.

Lemma hybridizeNamed_hybrid name v : isHybrid v = true -> hybridizeNamed name v = v.
Proof. by destruct v. Qed.

Lemma hybridize_function (v : value) (name : string) state :
  isFunction v = true -> hybridize v name state = v.
Proof. unfold hybridize. by intros ->. Qed.

Lemma hybridize_pending (v : value) (name : string) state :
  isFunction v = false -> name ∈ variablesToReset state ->
  hybridize v name state = hybridizeNamed name (deepConcretizeInplace v).
Proof. unfold hybridize. intros -> Hin. by rewrite bool_decide_eq_true_2. Qed.

Lemma hybridize_not_pending (v : value) (name : string) state :
  isFunction v = false -> name ∉ variablesToReset state ->
  hybridize v name state = hybridizeNamed name v.
Proof. unfold hybridize. intros -> Hnin. by rewrite bool_decide_eq_false_2. Qed.

Lemma hybridizeNamed_concrete name v :
  isFunction v = false -> isHybrid v = false ->
  hybridizeNamed name v = VHybrid "value" v (Identifier name) None false.
Proof. by destruct v. Qed.

(** C6, as the code has it: a read [hybridize v name state] returns a
    function [v] unchanged; for any other [v], if [name] is pending reset
    the result is [v] deep-concretized and then hybridized under [name];
    otherwise it is [v] hybridized under [name] as it is: [v] itself when
    [v] is already a hybrid, and a new hybrid of [v] under [name] when it is
    not.  What is recorded for [name] in [variablesModified] plays no part
    in the read. *)
Theorem hybridize_read (v : value) (name : string) state :
  (isFunction v = true -> hybridize v name state = v) /\
  (isFunction v = false -> name ∈ variablesToReset state ->
     hybridize v name state = hybridizeNamed name (deepConcretizeInplace v)) /\
  (isFunction v = false -> name ∉ variablesToReset state ->
     hybridize v name state = hybridizeNamed name v /\
     (isHybrid v = true -> hybridize v name state = v) /\
     (isHybrid v = false ->
        hybridize v name state = VHybrid "value" v (Identifier name) None false)) /\
  (forall recorded,
     hybridize v name (set_variablesModified recorded state) = hybridize v name state).
Proof.
  split; [|split; [|split]].
  - apply hybridize_function.
  - apply hybridize_pending.
  - intros Hv Hnin. rewrite hybridize_not_pending by done.
    split; [done|]. split; [apply hybridizeNamed_hybrid|].
    by apply hybridizeNamed_concrete.
  - reflexivity.
Qed.

Lemma cleanUpVariables_marks state name :
  name ∈ dom (variablesModified state) ->
  name ∈ variablesToReset (cleanUpVariables state).
Proof. intros Hin. unfold cleanUpVariables; simpl. by apply elem_of_union_r. Qed.

(** C7, as the code has it: [cleanUpVariables] marks every tracked name;
    a read of a marked name resets (deep-concretizes and re-hybridizes)
    and, changing no state, does so at every read; it is the write
    [saveVarIfHybrid] that removes the name from the pending-reset set and
    leaves the other names as they are, after which a read hybridizes the
    value as it is. *)
Theorem pending_reset_cleared_on_write (v w : value) (name : string) state :
  (name ∈ dom (variablesModified state) ->
     name ∈ variablesToReset (cleanUpVariables state)) /\
  (isFunction v = false -> name ∈ variablesToReset state ->
     hybridize v name state = hybridizeNamed name (deepConcretizeInplace v)) /\
  (name ∉ variablesToReset (snd (saveVarIfHybrid w name state))) /\
  (forall other, other <> name ->
     (other ∈ variablesToReset (snd (saveVarIfHybrid w name state)) <->
      other ∈ variablesToReset state)) /\
  (isFunction v = false ->
     hybridize v name (snd (saveVarIfHybrid w name state)) = hybridizeNamed name v).
Proof.
  assert (Hset : variablesToReset (snd (saveVarIfHybrid w name state))
                 = variablesToReset state ∖ {[name]}).
  { unfold saveVarIfHybrid. by destruct (isHybrid w). }
  split; [|split; [|split; [|split]]].
  - apply cleanUpVariables_marks.
  - apply hybridize_pending.
  - rewrite Hset, elem_of_difference, elem_of_singleton. tauto.
  - intros other Hne. rewrite Hset, elem_of_difference, elem_of_singleton. tauto.
  - intros Hv. apply hybridize_not_pending; [done|].
    rewrite Hset, elem_of_difference, elem_of_singleton. tauto.
Qed.
End VariableHooks.

Lemma hybridize_read_witness :
  let s := set_variablesToReset {["x"]} (Demo.initialState 2 1 false) in
  hybridize (VFunction nothingFunction) "x" s = VFunction nothingFunction /\
  hybridize Demo.hybridSum "x" s
    = VHybrid "value" (VNumber 1) (Identifier "x") None false /\
  hybridize Demo.hybridSum "y" s = Demo.hybridSum /\
  hybridize (VNumber 7) "y" s = VHybrid "value" (VNumber 7) (Identifier "y") None false.
Proof.
  intros s. split; [|split; [|split]].
  - apply (proj1 (hybridize_read (H := Demo.host) (VFunction nothingFunction) "x" s)). reflexivity.
  - apply (proj1 (proj2 (hybridize_read (H := Demo.host) Demo.hybridSum "x" s))).
    + reflexivity.
    + decide_by_computation.
  - apply (proj1 (proj2 (proj2 (hybridize_read (H := Demo.host) Demo.hybridSum "y" s)))).
    + reflexivity.
    + decide_by_computation.
    + reflexivity.
  - apply (proj1 (proj2 (proj2 (hybridize_read (H := Demo.host) (VNumber 7) "y" s)))).
    + reflexivity.
    + decide_by_computation.
    + reflexivity.
Defined.

(** C6 fails as stated: [x] is not pending reset and the hybrid [x + 1] is
    recorded for it, yet the read of the plain number 7 under [x] does not
    yield that hybrid, nor any hybrid there was before: it builds a new
    hybrid of 7 under [x]. *)
Lemma read_wraps_concrete_value :
  let s := set_variablesModified {["x" := Demo.hybridSum]} (Demo.initialState 2 1 false) in
  ("x" ∉ variablesToReset s) /\
  variablesModified s !! "x" = Some Demo.hybridSum /\
  isHybrid (VNumber 7) = false /\
  hybridize (VNumber 7) "x" s = VHybrid "value" (VNumber 7) (Identifier "x") None false /\
  hybridize (VNumber 7) "x" s <> Demo.hybridSum /\
  hybridize (VNumber 7) "x" s <> VNumber 7.
Proof.
  intros s. split; [decide_by_computation|].
  repeat split; try reflexivity; vm_compute; discriminate.
Qed.

(** C7 fails as stated: after [cleanUpVariables] has marked [x], the read
    [hybridize] resets the value, and since it changes no state the name is
    still pending for the next read, which therefore resets again instead of
    returning the existing hybrid [x + 1]. *)
Lemma read_keeps_pending_reset :
  let s0 := set_variablesModified {["x" := Demo.hybridSum]} (Demo.initialState 2 1 false) in
  let s := cleanUpVariables s0 in
  "x" ∈ variablesToReset s /\
  hybridize Demo.hybridSum "x" s
    = VHybrid "value" (VNumber 1) (Identifier "x") None false /\
  hybridize Demo.hybridSum "x" s <> Demo.hybridSum.
Proof.
  intros s0 s. split; [|split].
  - decide_by_computation.
  - vm_compute. reflexivity.
  - vm_compute. discriminate.
Qed.

Lemma pending_reset_cleared_on_write_witness :
  let s0 := set_variablesModified {["x" := Demo.hybridSum]} (Demo.initialState 2 1 false) in
  let s := cleanUpVariables s0 in
  "x" ∈ variablesToReset s /\
  hybridize Demo.hybridSum "x" s
    = VHybrid "value" (VNumber 1) (Identifier "x") None false /\
  hybridize Demo.hybridSum "x" (snd (saveVarIfHybrid Demo.hybridSum "x" s))
    = Demo.hybridSum.
Proof.
  intros s0 s.
  pose proof (pending_reset_cleared_on_write (H := Demo.host) Demo.hybridSum Demo.hybridSum "x" s0)
    as (Hmark & _).
  pose proof (pending_reset_cleared_on_write (H := Demo.host) Demo.hybridSum Demo.hybridSum "x" s)
    as (_ & Hread & _ & _ & Hwrite).
  assert (Hin : "x" ∈ variablesToReset s).
  { apply Hmark. decide_by_computation. }
  split; [exact Hin|]. split.
  - apply Hread; [reflexivity | exact Hin].
  - apply Hwrite. reflexivity.
Defined.

(** ** Boolean evaluation *)

Section BooleanHook.
Context `{Host}.
Implicit Type state : State Hidden.

(** C4, as the code has it: for a hybrid of type ['value'] the hook returns
    the concrete value; if the hybrid is marked invalid the path is recorded
    invalid; if it is valid and its symbolic expression is not a literal,
    the saved path is that expression when the concrete value is truthy and
    otherwise the recorded negation, or [!expr] when none is recorded; if
    the expression is a literal the state is left alone.  Every other value
    (not a hybrid, or a hybrid of another type) records the path invalid
    and is returned unchanged. *)
Theorem saveBoolIfHybrid_cases (v : value) state :
  (forall concrete symbolic negation,
     v = VHybrid "value" concrete symbolic negation true ->
     saveBoolIfHybrid v state = (concrete, setInvalidPath state)) /\
  (forall concrete symbolic negation,
     v = VHybrid "value" concrete symbolic negation false ->
     isLiteral symbolic = false ->
     saveBoolIfHybrid v state
     = (concrete,
        savePath (if truthy concrete then symbolic
                  else default (unaryExpression "!" symbolic) negation) state)) /\
  (forall concrete symbolic negation,
     v = VHybrid "value" concrete symbolic negation false ->
     isLiteral symbolic = true ->
     saveBoolIfHybrid v state = (concrete, state)) /\
  (isHybridValue v = false ->
     saveBoolIfHybrid v state = (v, setInvalidPath state)).
Proof.
  split; [|split; [|split]].
  - by intros concrete symbolic negation ->.
  - intros concrete symbolic negation -> Hlit. simpl. rewrite Hlit. simpl.
    by destruct (truthy concrete), negation.
  - intros concrete symbolic negation -> Hlit. simpl. by rewrite Hlit.
  - destruct v; try reflexivity. simpl. by intros ->.
Qed.

(** The value returned always has the truthiness of the value given,
    whenever the wrapper of a hybrid of another type stands for a truthy
    concrete value (as the wrapper of an array does). *)
Lemma saveBoolIfHybrid_truthy (v : value) state :
  isHybridValue v = true \/ isHybrid v = false ->
  truthy (fst (saveBoolIfHybrid v state)) = truthy (shallowConcretize v).
Proof.
  intros [Hv | Hv]; destruct v; try discriminate; try reflexivity.
  simpl in *. rewrite Hv. by destruct invalid.
Qed.
End BooleanHook.

Lemma saveBoolIfHybrid_cases_witness :
  let s := Demo.initialState 2 1 false in
  let falseSum :=
    VHybrid "value" (VBool false)
      (BinaryExpression "<" (Identifier "i") (Literal (LNumber 10))) None false in
  saveBoolIfHybrid (VHybrid "value" (VBool true) (Identifier "b") None true) s
    = (VBool true, setInvalidPath s) /\
  saveBoolIfHybrid falseSum s
    = (VBool false,
       savePath (UnaryExpression "!"
                   (BinaryExpression "<" (Identifier "i") (Literal (LNumber 10)))) s) /\
  saveBoolIfHybrid (VHybrid "value" (VBool true) (Literal (LBool true)) None false) s
    = (VBool true, s) /\
  saveBoolIfHybrid (VNumber 3) s = (VNumber 3, setInvalidPath s).
Proof.
  intros s falseSum. split; [|split; [|split]].
  - eapply (proj1 (saveBoolIfHybrid_cases (H := Demo.host) _ s)). reflexivity.
  - apply (proj1 (proj2 (saveBoolIfHybrid_cases (H := Demo.host) falseSum s))
             (VBool false) _ None); reflexivity.
  - eapply (proj1 (proj2 (proj2 (saveBoolIfHybrid_cases (H := Demo.host) _ s))));
      reflexivity.
  - apply (proj2 (proj2 (proj2 (saveBoolIfHybrid_cases (H := Demo.host) (VNumber 3) s)))).
    reflexivity.
Defined.

(** C4 fails as stated: a hybrid whose [type] is not ['value'], valid and
    with the non-literal expression [xs], does not have that expression saved
    as the path condition; the path is recorded invalid and the wrapper
    itself is returned, not the concrete array. *)
Lemma saveBoolIfHybrid_other_hybrid :
  let s := Demo.initialState 2 1 false in
  isHybrid Demo.hybridArray = true /\
  saveBoolIfHybrid Demo.hybridArray s = (Demo.hybridArray, setInvalidPath s) /\
  Demo.paths (hidden (snd (saveBoolIfHybrid Demo.hybridArray s))) = None /\
  Demo.paths (hidden (savePath (Identifier "xs") s)) = Some [Identifier "xs"] /\
  fst (saveBoolIfHybrid Demo.hybridArray s) <> shallowConcretize Demo.hybridArray.
Proof.
  intros s. repeat split; try reflexivity. vm_compute. discriminate.
Qed.

(** ** The builtin table *)

Section Builtins.
Context `{Host}.

Lemma callFn_nothingFunction (args : list value) (w : World) :
  callFn nothingFunction args w = (Returned (VFunction nothingFunction), w).
Proof. reflexivity. Qed.

Lemma callChain_nothingFunction (argss : list (list value)) (w : World) :
  callChain (VFunction nothingFunction) argss w
  = (Returned (VFunction nothingFunction), w).
Proof. induction argss as [|args rest IH]; [reflexivity|]. exact IH. Qed.

Lemma prepareBuiltins_lookup (oldBuiltins : gmap string value) (name : string) :
  name <> "undefined" ->
  prepareBuiltins oldBuiltins !! name
  = (fun fun_ => match builtinSpecialCases name with
                 | Some specialCase => specialCase
                 | None => VFunction (BuiltinWrapper fun_)
                 end) <$> oldBuiltins !! name.
Proof.
  intros Hne. unfold prepareBuiltins.
  rewrite lookup_insert_ne by done.
  rewrite map_lookup_imap. by destruct (oldBuiltins !! name).
Qed.

(** C10: [nothingFunction] called on any arguments returns
    [nothingFunction] itself and changes nothing; [display] and
    [display_list] are replaced by it, so a call of either returns the
    no-op function, not its argument; and any chain of further calls on
    that result returns, without an error, the no-op function again. *)
Theorem nothingFunction_fixed_point
    (oldBuiltins : gmap string value) (name : string)
    (args : list value) (argss : list (list value)) (w : World) :
  callFn nothingFunction args w = (Returned (VFunction nothingFunction), w) /\
  (name = "display" \/ name = "display_list" ->
   is_Some (oldBuiltins !! name) ->
   exists display,
     prepareBuiltins oldBuiltins !! name = Some display /\
     display = VFunction nothingFunction /\
     callChain display (args :: argss) w = (Returned (VFunction nothingFunction), w)).
Proof.
  split; [reflexivity|].
  intros Hname [fun_ Hold]. exists (VFunction nothingFunction).
  split; [|split; [reflexivity|]].
  - rewrite prepareBuiltins_lookup by (destruct Hname as [-> | ->]; discriminate).
    rewrite Hold. by destruct Hname as [-> | ->].
  - apply (callChain_nothingFunction (args :: argss)).
Qed.
End Builtins.

Lemma nothingFunction_fixed_point_witness :
  let old : gmap string value := {["display" := VFunction (HostFunction 7)]} in
  let w := mkWorld (Demo.initialState 2 1 false) [] in
  exists display,
    prepareBuiltins old !! "display" = Some display /\
    display = VFunction nothingFunction /\
    callChain display [[VNumber 42]; []; [VString "again"]] w
    = (Returned (VFunction nothingFunction), w).
Proof.
  intros old w.
  apply (proj2 (nothingFunction_fixed_point (H := Demo.host) old "display"
                  [VNumber 42] [[]; [VString "again"]] w)).
  - left. reflexivity.
  - exists (VFunction (HostFunction 7)). reflexivity.
Defined.

Section BuiltinTable.
Context `{Host}.

Lemma callFn_BuiltinWrapper (fun_ : value) (args : list value) (w : World) :
  callFn (BuiltinWrapper fun_) args w = callValue fun_ (map shallowConcretize args) w.
Proof. by destruct fun_. Qed.

Lemma builtinSpecialCases_None (name : string) :
  builtinSpecialCases name = None <->
  name <> "is_null" /\ name <> "display" /\ name <> "display_list" /\
  (name ∉ objectPrototypeNames) /\ name <> "__proto__".
Proof.
  unfold builtinSpecialCases.
  destruct (String.eqb_spec name "is_null"); [split; [discriminate | tauto]|].
  destruct (String.eqb_spec name "display"); [split; [discriminate | tauto]|].
  destruct (String.eqb_spec name "display_list"); [split; [discriminate | tauto]|].
  case_bool_decide; [split; [discriminate | tauto]|].
  destruct (String.eqb_spec name "__proto__"); [split; [discriminate | tauto]|].
  tauto.
Qed.

(** C8, as the code has it: a name of the given table other than
    ['undefined'] for which [builtinSpecialCases] has no entry (so not
    [is_null], [display] or [display_list], and not a name that the object
    literal inherits) is mapped to a wrapper, and calling the wrapper calls
    the original with every argument shallow-concretized and gives its
    outcome, so that an argument whose concrete part is not a hybrid
    reaches the original without its wrapper; [is_null] is mapped to the
    null test of the detector, [display] and [display_list] to
    [nothingFunction]; ['undefined'] is mapped to [undefined] whatever the
    given table holds. *)
Theorem prepareBuiltins_table
    (oldBuiltins : gmap string value) (name : string) (fun_ : value) :
  oldBuiltins !! name = Some fun_ ->
  (name <> "undefined" -> builtinSpecialCases name = None ->
     prepareBuiltins oldBuiltins !! name = Some (VFunction (BuiltinWrapper fun_)) /\
     (forall args w,
        callFn (BuiltinWrapper fun_) args w
        = callValue fun_ (map shallowConcretize args) w) /\
     (forall args,
        Forall (fun a => isHybrid (shallowConcretize a) = false) args ->
        Forall (fun a => isHybrid a = false) (map shallowConcretize args))) /\
  (name = "is_null" ->
     prepareBuiltins oldBuiltins !! name = Some (VFunction is_null_special)) /\
  (name = "display" \/ name = "display_list" ->
     prepareBuiltins oldBuiltins !! name = Some (VFunction nothingFunction)) /\
  prepareBuiltins oldBuiltins !! "undefined" = Some VUndefined.
Proof.
  intros Hold. split; [|split; [|split]].
  - intros Hne Hnone. split; [|split].
    + rewrite prepareBuiltins_lookup by done. by rewrite Hold, Hnone.
    + intros args w. apply callFn_BuiltinWrapper.
    + intros args Hargs. by apply Forall_map.
  - intros ->. rewrite prepareBuiltins_lookup by discriminate. by rewrite Hold.
  - intros Hname.
    rewrite prepareBuiltins_lookup by (destruct Hname as [-> | ->]; discriminate).
    rewrite Hold. by destruct Hname as [-> | ->].
  - unfold prepareBuiltins. apply lookup_insert_eq.
Qed.
End BuiltinTable.

Lemma prepareBuiltins_table_witness :
  let old : gmap string value :=
    {["math_abs" := VFunction (HostFunction 7); "is_null" := VFunction (HostFunction 8)]} in
  let w := mkWorld (Demo.initialState 2 1 false) [] in
  prepareBuiltins old !! "math_abs"
    = Some (VFunction (BuiltinWrapper (VFunction (HostFunction 7)))) /\
  callFn (BuiltinWrapper (VFunction (HostFunction 7))) [Demo.hybridSum] w
    = (Returned (VNumber 1), w) /\
  prepareBuiltins old !! "is_null" = Some (VFunction is_null_special).
Proof.
  intros old w.
  pose proof (prepareBuiltins_table (H := Demo.host) old "math_abs"
                (VFunction (HostFunction 7)) eq_refl) as (Hwrap & _).
  pose proof (prepareBuiltins_table (H := Demo.host) old "is_null"
                (VFunction (HostFunction 8)) eq_refl) as (_ & Hspecial & _).
  destruct Hwrap as (Hlookup & Hcall & _); [discriminate | reflexivity |].
  split; [exact Hlookup|]. split.
  - rewrite Hcall. reflexivity.
  - apply Hspecial. reflexivity.
Defined.

(** C8 fails as stated: ['undefined'] is a name of the table other than
    [is_null], [display] and [display_list], and it is not mapped to a
    wrapper of the original but to [undefined]. *)
Lemma prepareBuiltins_undefined_not_wrapped :
  let old : gmap string value :=
    {["undefined" := VUndefined; "math_abs" := VFunction (HostFunction 7)]} in
  old !! "undefined" = Some VUndefined /\
  builtinSpecialCases "undefined" = None /\
  prepareBuiltins old !! "undefined" = Some VUndefined /\
  prepareBuiltins old !! "undefined" <> Some (VFunction (BuiltinWrapper VUndefined)).
Proof.
  intros old. repeat split; try reflexivity. vm_compute. discriminate.
Qed.

(** ** The dispatch policy *)

Section Dispatch.
Context `{Host}.

Lemma dispatchLoop_past fuel checkpoint stackPositions name w :
  Z.of_nat (length stackPositions) < checkpoint ->
  dispatchLoop (S fuel) checkpoint stackPositions name w = (Returned tt, w).
Proof.
  intros Hlt. simpl.
  destruct (Z.leb_spec checkpoint (Z.of_nat (length stackPositions))); [lia|done].
Qed.

(** No checkpoint of the doubling sequence is the length: the loop ends
    without an analysis. *)
Lemma dispatchLoop_miss fuel : forall checkpoint stackPositions name w,
  1 <= checkpoint ->
  (Z.to_nat (Z.of_nat (length stackPositions) + 1 - checkpoint) < fuel)%nat ->
  (forall k : nat, Z.of_nat (length stackPositions) <> checkpoint * 2 ^ Z.of_nat k) ->
  dispatchLoop fuel checkpoint stackPositions name w = (Returned tt, w).
Proof.
  induction fuel as [|fuel IH]; intros checkpoint stackPositions name w Hpos Hfuel Hmiss;
    [lia|].
  simpl. destruct (Z.leb_spec checkpoint (Z.of_nat (length stackPositions))); [|done].
  destruct (Z.eqb_spec (Z.of_nat (length stackPositions)) checkpoint) as [Heq|Hne].
  { exfalso. apply (Hmiss 0%nat). simpl. lia. }
  unfold bind at 1. simpl. apply IH; [lia | lia |].
  intros k Hk. apply (Hmiss (S k)).
  rewrite Nat2Z.inj_succ, Z.pow_succ_r by lia. lia.
Qed.

(** Some checkpoint of the doubling sequence is the length: the analysis
    runs once, on that iteration, and the loop ends after it. *)
Lemma dispatchLoop_hit fuel : forall checkpoint stackPositions name w (k : nat),
  1 <= checkpoint ->
  (Z.to_nat (Z.of_nat (length stackPositions) + 1 - checkpoint) < fuel)%nat ->
  Z.of_nat (length stackPositions) = checkpoint * 2 ^ Z.of_nat k ->
  dispatchLoop fuel checkpoint stackPositions name w = checked stackPositions name w.
Proof.
  induction fuel as [|fuel IH]; intros checkpoint stackPositions name w k Hpos Hfuel Hhit;
    [lia|].
  assert (Hpow : 1 <= 2 ^ Z.of_nat k) by (apply Z.pow_le_mono_r with (b := 0); lia).
  simpl. destruct (Z.leb_spec checkpoint (Z.of_nat (length stackPositions))); [|nia].
  destruct (Z.eqb_spec (Z.of_nat (length stackPositions)) checkpoint) as [Heq|Hne].
  - unfold bind at 1, bind at 1, emit, checked. simpl.
    destruct (checkForInfiniteLoop stackPositions (state w) name) as [[e|] h]; [done|].
    destruct fuel as [|fuel]; [lia|].
    apply dispatchLoop_past. simpl. lia.
  - unfold bind at 1. simpl.
    destruct k as [|k]; [simpl in Hhit; lia|].
    apply (IH _ _ _ _ k); [lia | lia |].
    rewrite Hhit, Nat2Z.inj_succ, Z.pow_succ_r by lia. lia.
Qed.

(** C1: with a threshold of at least one and enough fuel for the loop,
    [dispatchIfMeetsThreshold] runs [checkForInfiniteLoop] if and only if
    the length of the history is the threshold times a power of two; it
    then runs it exactly once, on the whole history, and ends as that run
    ends.  Otherwise it returns having run no analysis and changed no
    state. *)
Theorem dispatch_checks_at_doublings
    (fuel : nat) (stackPositions : list nat) (name : option string) (w : World) :
  1 <= threshold (state w) ->
  (length stackPositions < fuel)%nat ->
  let entered := mkWorld (state w) (trace w ++ [EvDispatch stackPositions name]) in
  ((exists k : nat,
      Z.of_nat (length stackPositions) = threshold (state w) * 2 ^ Z.of_nat k) ->
   dispatchIfMeetsThreshold fuel stackPositions name w
   = checked stackPositions name entered /\
   trace (snd (dispatchIfMeetsThreshold fuel stackPositions name w))
   = trace w ++ [EvDispatch stackPositions name; EvCheck stackPositions name]) /\
  (~ (exists k : nat,
        Z.of_nat (length stackPositions) = threshold (state w) * 2 ^ Z.of_nat k) ->
   dispatchIfMeetsThreshold fuel stackPositions name w = (Returned tt, entered)).
Proof.
  intros Hpos Hfuel entered. split.
  - intros [k Hk].
    assert (Hrun : dispatchIfMeetsThreshold fuel stackPositions name w
                   = checked stackPositions name entered).
    { unfold dispatchIfMeetsThreshold, bind, emit, getState. simpl.
      apply (dispatchLoop_hit fuel _ _ _ entered k); [done | simpl; lia | done]. }
    split; [exact Hrun|]. rewrite Hrun. unfold checked.
    destruct (checkForInfiniteLoop _ _ _) as [e h]. simpl.
    by rewrite <- app_assoc.
  - intros Hnone.
    unfold dispatchIfMeetsThreshold, bind, emit, getState. simpl.
    apply dispatchLoop_miss; [done | simpl; lia |].
    intros k Hk. apply Hnone. by exists k.
Qed.
End Dispatch.

Lemma dispatch_checks_at_doublings_witness :
  let w := mkWorld (Demo.initialState 2 1 false) [] in
  trace (snd (dispatchIfMeetsThreshold 5 [0; 1; 2; 3]%nat (Some "f") w))
    = [EvDispatch [0; 1; 2; 3]%nat (Some "f"); EvCheck [0; 1; 2; 3]%nat (Some "f")] /\
  dispatchIfMeetsThreshold 5 [0; 1; 2]%nat (Some "f") w
    = (Returned tt, mkWorld (state w) [EvDispatch [0; 1; 2]%nat (Some "f")]).
Proof.
  intros w. split.
  - destruct (dispatch_checks_at_doublings (H := Demo.host) 5 [0; 1; 2; 3]%nat (Some "f") w)
      as [Hhit _]; [simpl; lia | simpl; lia |].
    apply Hhit. exists 1%nat. reflexivity.
  - destruct (dispatch_checks_at_doublings (H := Demo.host) 5 [0; 1; 2]%nat (Some "f") w)
      as [_ Hmiss]; [simpl; lia | simpl; lia |].
    assert (Hodd : forall k : nat, 3 <> 2 * 2 ^ Z.of_nat k).
    { intros [|k]; [simpl; lia|]. rewrite Nat2Z.inj_succ, Z.pow_succ_r by lia. lia. }
    apply Hmiss. intros [k Hk]. exact (Hodd k Hk).
Defined.

(** ** Function entry *)

Section FunctionEntry.
Context `{Host}.
Implicit Type s : State Hidden.

Lemma sameFields_refl s : sameFields s s.
Proof. by destruct s. Qed.

Lemma sameFields_set_hidden s s' h : sameFields s s' -> sameFields s (set_hidden h s').
Proof. intros ->. reflexivity. Qed.

Lemma sameFields_trans s1 s2 s3 : sameFields s1 s2 -> sameFields s2 s3 -> sameFields s1 s3.
Proof. intros -> ->. reflexivity. Qed.

Lemma dispatchLoop_sameFields fuel : forall checkpoint stackPositions name w,
  sameFields (state w) (state (snd (dispatchLoop fuel checkpoint stackPositions name w))).
Proof.
  induction fuel as [|fuel IH]; intros checkpoint stackPositions name w; simpl.
  { apply sameFields_refl. }
  destruct (checkpoint <=? Z.of_nat (length stackPositions)); [|apply sameFields_refl].
  destruct (Z.of_nat (length stackPositions) =? checkpoint).
  - unfold bind at 1, bind at 1, emit. simpl.
    destruct (checkForInfiniteLoop stackPositions (state w) name) as [[e|] h]; simpl.
    + apply sameFields_set_hidden, sameFields_refl.
    + eapply sameFields_trans; [|apply IH]. simpl.
      apply sameFields_set_hidden, sameFields_refl.
  - unfold bind at 1. simpl. apply IH.
Qed.

Lemma dispatchIfMeetsThreshold_sameFields fuel stackPositions name w :
  sameFields (state w) (state (snd (dispatchIfMeetsThreshold fuel stackPositions name w))).
Proof.
  unfold dispatchIfMeetsThreshold, bind, emit, getState. simpl.
  apply (dispatchLoop_sameFields fuel _ _ _
           (mkWorld (state w) (trace w ++ [EvDispatch stackPositions name]))).
Qed.


Lemma preFunction_unfold fuel name args w :
  let passed := functionWasPassedAsArgument (state w) in
  let newName := if passed then "*" +:+ name else name in
  let tracker := default [] (functionTrackers (state w) !! newName) in
  let entered := state (snd (enterFunction newName w)) in
  let prepared := saveArgsInTransition args tracker (cleanUpVariables entered) in
  let finish (o : result unit * World) :=
    match fst o with
    | Returned _ =>
        (Returned tt, mkWorld (framePushed newName (state (snd o))) (trace (snd o)))
    | _ => o
    end in
  preFunction fuel name args w =
  if hasTimedOut (state w) then (Thrown (Error "timeout"), w)
  else if bool_decide (tracker = []) then finish (Returned tt, mkWorld entered (trace w))
  else if passed then finish (Returned tt, mkWorld prepared (trace w))
  else finish (dispatchIfMeetsThreshold fuel (removelast tracker) (Some name)
                 (mkWorld prepared (trace w))).
Proof.
  intros passed newName tracker entered prepared finish.
  unfold preFunction, checkTimeout, bind, getState, modifyState, ret, throw,
    newStackFrame. simpl.
  destruct (hasTimedOut (state w)); simpl; [done|].
  fold passed. fold newName. fold tracker.
  unfold finish, framePushed.
  destruct (bool_decide (tracker = [])); simpl.
  { by destruct (newStackFrameHidden _). }
  fold passed. destruct passed; simpl.
  { by destruct (newStackFrameHidden _). }
  fold entered. fold prepared.
  destruct (dispatchIfMeetsThreshold _ _ _ _) as [[[]| |] wd]; simpl; try done.
  by destruct (newStackFrameHidden _).
Qed.

Lemma framePushed_spec newName s :
  functionWasPassedAsArgument (framePushed newName s) = false /\
  (exists frame,
     functionTrackers (framePushed newName s) !! newName
     = Some (default [] (functionTrackers s !! newName) ++ [frame])) /\
  (forall other, other <> newName ->
     functionTrackers (framePushed newName s) !! other = functionTrackers s !! other).
Proof.
  unfold framePushed. destruct (newStackFrameHidden s) as [frame h]. simpl.
  split; [done|]. split.
  - exists frame. by rewrite lookup_insert_eq.
  - intros other Hne. by rewrite lookup_insert_ne.
Qed.

Lemma framePushed_over s0 s newName tracker :
  functionTrackers s = <[newName := tracker]> (functionTrackers s0) ->
  functionWasPassedAsArgument (framePushed newName s) = false /\
  (exists frame,
     functionTrackers (framePushed newName s) !! newName = Some (tracker ++ [frame])) /\
  (forall other, other <> newName ->
     functionTrackers (framePushed newName s) !! other = functionTrackers s0 !! other).
Proof.
  intros Htrackers.
  destruct (framePushed_spec newName s) as (Hflag & [frame Hframe] & Hother).
  split; [done|]. split.
  - exists frame. rewrite Hframe, Htrackers. by rewrite lookup_insert_eq.
  - intros other Hne. rewrite Hother, Htrackers by done. by rewrite lookup_insert_ne.
Qed.

End FunctionEntry.


(** ** The stream heuristic *)

Section Streams.
Context `{Host}.



Lemma streamLoop_S fuel i next w :
  streamLoop (S fuel) i next w =
  if i <=? threshold (state w) then
    if list_is_null next then (Returned tt, w)
    else if isFunction (tailOf next) then
      match callValue (tailOf next) []
              (mkWorld (state w) (trace w ++ [EvForce (tailOf next)])) with
      | (Returned forced, w2) => streamLoop fuel (i + 1) (shallowConcretize forced) w2
      | (Thrown e, w2) => (Thrown e, w2)
      | (OutOfFuel, w2) => (OutOfFuel, w2)
      end
    else (Returned tt, w)
  else (Returned tt, w).
Proof.
  simpl. unfold bind, getState, emit, ret. simpl.
  destruct (i <=? threshold (state w)); [|done].
  destruct (list_is_null next); [done|].
  by destruct (isFunction (tailOf next)).
Qed.


Lemma streamLoop_endless (Hkeeps : hostKeepsThreshold) (Hendless : hostEndless) fuel :
  forall i next w,
    isEndlessCell next ->
    (Z.to_nat (threshold (state w) + 1 - i) < fuel)%nat ->
    exists forced,
      fst (streamLoop fuel i next w) = Returned tt /\
      trace (snd (streamLoop fuel i next w)) = trace w ++ map EvForce forced /\
      length forced = Z.to_nat (threshold (state w) + 1 - i).
Proof.
  induction fuel as [|fuel IH]; intros i next w [Hnotnull [id Htail]] Hfuel; [lia|].
  rewrite streamLoop_S, Hnotnull, Htail. simpl.
  destruct (Z.leb_spec i (threshold (state w))) as [Hle|Hgt].
  - unfold liftHost. simpl.
    destruct (Hendless id [] (state w)) as (v & s' & Hcall & Hcell).
    pose proof (Hkeeps (HostFunction id) [] (state w)) as Hthreshold.
    rewrite Hcall in *. simpl in Hthreshold.
    destruct (IH (i + 1) (shallowConcretize v)
                (mkWorld s' (trace w ++ [EvForce (VFunction (HostFunction id))])))
      as (rest & Hr & Htrace & Hlen); [done | simpl; rewrite Hthreshold; lia|].
    exists (VFunction (HostFunction id) :: rest).
    rewrite Hr, Htrace. simpl. rewrite <- app_assoc. split; [done|]. split; [done|].
    rewrite Hlen. simpl. rewrite Hthreshold. lia.
  - exists []. simpl. rewrite app_nil_r. split; [done|]. split; [done|]. lia.
Qed.

Lemma testIfInfiniteStream_unfold fuel stream w :
  testIfInfiniteStream fuel stream w =
  match streamLoop fuel 0 stream w with
  | (Returned _, w1) => (Thrown (Error "timeout"), w1)
  | (Thrown e, w1) => (Thrown e, w1)
  | (OutOfFuel, w1) => (OutOfFuel, w1)
  end.
Proof. reflexivity. Qed.




(** The null test of a stream outside stream mode for the function it is
    called in: it only counts. *)
Lemma is_null_counting fuel maybeHybrid w :
  let lastFunction := getLastFunctionName (state w) in
  let count := default 1 (streamCounts (state w) !! lastFunction) in
  isFunction (tailOf (shallowConcretize maybeHybrid)) = true ->
  streamMode (state w) && bool_decide (streamLastFunction (state w) = Some lastFunction)
    = false ->
  is_null fuel maybeHybrid true w =
  (Returned VUndefined,
   mkWorld
     (set_streamCounts (<[lastFunction := count + 1]> (streamCounts (state w)))
        (if count >? streamThreshold (state w)
         then set_streamLastFunction (Some lastFunction) (set_streamMode true (state w))
         else state w))
     (trace w)).
Proof.
  intros lastFunction count Hstream Hmode. unfold is_null. rewrite Hstream. simpl.
  unfold bind at 1, getState at 1. simpl. fold lastFunction. rewrite Hmode.
  fold count. unfold bind, modifyState, ret. simpl.
  by destruct (count >? streamThreshold (state w)).
Qed.



End Streams.

Lemma Endless_keeps_threshold : hostKeepsThreshold (H := Endless.host).
Proof. intros f args s. reflexivity. Qed.

Lemma Endless_is_endless : hostEndless (H := Endless.host).
Proof.
  intros id args s. eexists _, s. split; [reflexivity|].
  split; [reflexivity|]. by exists 0%nat.
Qed.






(** A run of three null tests of the endless stream of ones inside
    [consume], with both thresholds at 1: the first stores the count 2, the
    second finds 2 > 1 and turns stream mode on, the third probes the stream
    and ends with the timeout error. *)
Example three_null_tests :
  let w := mkWorld (Demo.consuming 1 1) [] in
  let tail := VFunction (HostFunction 0) in
  let once := snd (is_null 5 Demo.ones true w) in
  let twice := snd (is_null 5 Demo.ones true once) in
  (streamCounts (state once) !! "consume" = Some 2 /\ streamMode (state once) = false) /\
  (streamCounts (state twice) !! "consume" = Some 3 /\ streamMode (state twice) = true /\
   streamLastFunction (state twice) = Some "consume") /\
  fst (is_null 5 Demo.ones true twice) = Thrown (Error "timeout") /\
  trace (snd (is_null 5 Demo.ones true twice)) = [EvForce tail; EvForce tail; EvForce tail].
Proof. repeat split; vm_compute; reflexivity. Qed.

(** ** The driver *)

Section DriverResult.
Context `{Frontend}.

Lemma checkTimeout_timed_out (w : World) :
  hasTimedOut (state w) = true -> checkTimeout w = (Thrown (Error "timeout"), w).
Proof. intros Htimeout. unfold checkTimeout, bind, getState. by rewrite Htimeout. Qed.

(** C2, as the code has it: the driver returns a diagnostic exactly when the
    run throws an [InfiniteLoopError]; the diagnostic is that error, with
    its location replaced by the last tracked location when one was
    tracked.  It returns [undefined] when the candidate does not parse, when
    the run completes, and when the run throws anything else, the
    ['timeout'] error of [checkTimeout] included. *)
Theorem testForInfiniteLoop_result (code : string) (previousCodeStack : list string) :
  (parse code = None -> testForInfiniteLoop code previousCodeStack = Returned None) /\
  (forall program, parse code = Some program ->
     let r := fst (driverRun program previousCodeStack) in
     let final := state (snd (driverRun program previousCodeStack)) in
     (forall error, r = Thrown (InfiniteLoop error) ->
        exists diagnostic,
          testForInfiniteLoop code previousCodeStack = Returned (Some diagnostic) /\
          message diagnostic = message error /\
          functionName diagnostic = functionName error /\
          location diagnostic
          = match lastLocation final with
            | Some loc => Some loc
            | None => location error
            end) /\
     (forall msg, r = Thrown (Error msg) \/ r = Thrown (TypeError msg) ->
        testForInfiniteLoop code previousCodeStack = Returned None) /\
     (forall v, r = Returned v ->
        testForInfiniteLoop code previousCodeStack = Returned None) /\
     (forall diagnostic,
        testForInfiniteLoop code previousCodeStack = Returned (Some diagnostic) ->
        exists error, r = Thrown (InfiniteLoop error))).
Proof.
  unfold testForInfiniteLoop. split.
  - by intros ->.
  - intros program ->. fold (driverRun program previousCodeStack).
    destruct (driverRun program previousCodeStack) as [r w]. simpl.
    split; [|split; [|split]].
    + intros error ->. eexists. split; [reflexivity|].
      by destruct (lastLocation (state w)).
    + by intros msg [-> | ->].
    + by intros v ->.
    + intros diagnostic. destruct r as [v|[msg|error|msg]|]; try discriminate.
      intros _. by exists error.
Qed.
End DriverResult.

Lemma testForInfiniteLoop_result_witness :
  testForInfiniteLoop (H0 := Demo.frontend false) "" ["slow"] = Returned None /\
  (exists diagnostic,
     testForInfiniteLoop (H0 := Demo.frontend false) "detected" []
     = Returned (Some diagnostic) /\
     location diagnostic = Some Demo.here) /\
  (exists diagnostic,
     testForInfiniteLoop (H0 := Demo.frontend false) "unlocated" []
     = Returned (Some diagnostic) /\
     location diagnostic = None) /\
  testForInfiniteLoop (H0 := Demo.frontend true) "slow" [] = Returned None /\
  testForInfiniteLoop (H0 := Demo.frontend false) "slow" [] = Returned None.
Proof.
  split; [|split; [|split; [|split]]].
  - apply (proj1 (testForInfiniteLoop_result (H0 := Demo.frontend false) "" ["slow"])).
    reflexivity.
  - destruct (proj2 (testForInfiniteLoop_result (H0 := Demo.frontend false) "detected" [])
                "detected" eq_refl) as (Hdetected & _).
    destruct (Hdetected Demo.detected) as (diagnostic & Hd & _ & _ & Hloc);
      [vm_compute; reflexivity|].
    exists diagnostic. split; [exact Hd | exact Hloc].
  - destruct (proj2 (testForInfiniteLoop_result (H0 := Demo.frontend false) "unlocated" [])
                "unlocated" eq_refl) as (Hdetected & _).
    destruct (Hdetected Demo.detected) as (diagnostic & Hd & _ & _ & Hloc);
      [vm_compute; reflexivity|].
    exists diagnostic. split; [exact Hd | exact Hloc].
  - destruct (proj2 (testForInfiniteLoop_result (H0 := Demo.frontend true) "slow" [])
                "slow" eq_refl) as (_ & Hother & _).
    apply (Hother "timeout"). left. vm_compute. reflexivity.
  - destruct (proj2 (testForInfiniteLoop_result (H0 := Demo.frontend false) "slow" [])
                "slow" eq_refl) as (_ & _ & Hreturned & _).
    apply (Hreturned VUndefined). vm_compute. reflexivity.
Defined.

(** C2 fails as stated: a run that is stopped by the internal timeout makes
    the driver return [undefined], which is also what it returns for the
    same program when the budget lasts and the run completes: no diagnostic
    is returned for the timeout, and the two outcomes are not told apart. *)
Lemma testForInfiniteLoop_timeout_is_silent :
  fst (driverRun (H0 := Demo.frontend true) "slow" []) = Thrown (Error "timeout") /\
  lastLocation (state (snd (driverRun (H0 := Demo.frontend true) "slow" [])))
    = Some Demo.here /\
  testForInfiniteLoop (H0 := Demo.frontend true) "slow" [] = Returned None /\
  fst (driverRun (H0 := Demo.frontend false) "slow" []) = Returned VUndefined /\
  testForInfiniteLoop (H0 := Demo.frontend false) "slow" [] = Returned None.
Proof. repeat split; vm_compute; reflexivity. Qed.

(** * Further properties of the hooks *)

(** ** Writing a variable *)

Section VariableWrite.
Context `{Host}.
Implicit Type state : State Hidden.

(** X1: [saveVarIfHybrid] returns the value it is given; a hybrid value
    becomes the value recorded for the name; any other value leaves the
    record as it is, so that the hybrid recorded earlier for the name, if
    any, stays; the records of the other names are never touched. *)
Theorem saveVarIfHybrid_records (v : value) (name : string) state :
  fst (saveVarIfHybrid v name state) = v /\
  (isHybrid v = true ->
     variablesModified (snd (saveVarIfHybrid v name state)) !! name = Some v) /\
  (isHybrid v = false ->
     variablesModified (snd (saveVarIfHybrid v name state)) = variablesModified state) /\
  (forall other, other <> name ->
     variablesModified (snd (saveVarIfHybrid v name state)) !! other
     = variablesModified state !! other).
Proof.
  unfold saveVarIfHybrid. split; [done|].
  destruct (isHybrid v); simpl.
  - split; [intros _; apply lookup_insert_eq|]. split; [discriminate|].
    intros other Hne. by rewrite lookup_insert_ne.
  - split; [discriminate|]. split; [done|]. done.
Qed.
End VariableWrite.

Lemma saveVarIfHybrid_records_witness :
  let s := Demo.initialState 2 1 false in
  let written := snd (saveVarIfHybrid Demo.hybridSum "x" s) in
  variablesModified written !! "x" = Some Demo.hybridSum /\
  variablesModified (snd (saveVarIfHybrid (VNumber 7) "x" written)) !! "x"
    = Some Demo.hybridSum /\
  variablesModified written !! "y" = None.
Proof.
  intros s written.
  destruct (saveVarIfHybrid_records (H := Demo.host) Demo.hybridSum "x" s)
    as (_ & Hhybrid & _ & Hother).
  destruct (saveVarIfHybrid_records (H := Demo.host) (VNumber 7) "x" written)
    as (_ & _ & Hplain & _).
  subst written.
  split; [apply Hhybrid; reflexivity|]. split.
  - rewrite Hplain by reflexivity. apply Hhybrid. reflexivity.
  - rewrite (Hother "y") by discriminate. reflexivity.
Defined.

(** ** Functions passed as arguments *)

Section ArgumentWrapper.
Context `{Host}.

(** X2: [wrapArgIfFunction] returns anything but a function unchanged.  The
    wrapper of a function is a function; calling it is calling the function
    on the same arguments in the state where [functionWasPassedAsArgument]
    is set; and wrapping twice makes no difference to a call. *)
Theorem wrapArgIfFunction_call (arg : value) (args : list value) (w : World) :
  (isFunction arg = false -> wrapArgIfFunction arg = arg) /\
  (isFunction arg = true ->
     isFunction (wrapArgIfFunction arg) = true /\
     callValue (wrapArgIfFunction arg) args w
     = callValue arg args
         (mkWorld (set_functionWasPassedAsArgument true (state w)) (trace w)) /\
     callValue (wrapArgIfFunction (wrapArgIfFunction arg)) args w
     = callValue (wrapArgIfFunction arg) args w).
Proof.
  destruct arg; simpl; (split; [done|]); try discriminate.
  intros _. split; [done|]. split; reflexivity.
Qed.

Lemma star_name_differs (name : string) : "*" +:+ name <> name.
Proof.
  change ("*" +:+ name) with (String (Ascii.ascii_of_nat 42) name).
  intros Heq. apply (f_equal String.length) in Heq. simpl in Heq. lia.
Qed.

(** X3: the flag set by a wrapper is taken by the next [preFunction],
    whatever function that is.  When the wrapped function is
    [nothingFunction], which enters no function, the call returns
    [nothingFunction] with the flag still set, and the next function [g]
    entered is recorded in the tracker of ['*' + g]: no dispatch is made,
    the tracker of [g] itself is left as it is, and the flag is off
    afterwards. *)
Theorem wrapper_flag_reaches_next_preFunction
    (fuel : nat) (g : string) (args : list value) (params : list (string * value))
    (w : World) :
  hasTimedOut (set_functionWasPassedAsArgument true (state w)) = false ->
  let called := callValue (wrapArgIfFunction (VFunction nothingFunction)) args w in
  let entered := preFunction fuel g params (snd called) in
  fst called = Returned (VFunction nothingFunction) /\
  functionWasPassedAsArgument (state (snd called)) = true /\
  fst entered = Returned tt /\
  trace (snd entered) = trace w /\
  (exists frame,
     functionTrackers (state (snd entered)) !! ("*" +:+ g)
     = Some (default [] (functionTrackers (state w) !! ("*" +:+ g)) ++ [frame])) /\
  functionTrackers (state (snd entered)) !! g = functionTrackers (state w) !! g /\
  functionWasPassedAsArgument (state (snd entered)) = false.
Proof.
  intros Htimeout called entered.
  split; [done|]. split; [done|].
  subst entered. rewrite preFunction_unfold. subst called. simpl.
  rewrite Htimeout.
  set (flagged := set_functionWasPassedAsArgument true (state w)).
  set (tracker := default [] (functionTrackers (state w) !! ("*" +:+ g))).
  assert (Hover : forall s0,
            functionTrackers s0 = <["*" +:+ g := tracker]> (functionTrackers (state w)) ->
            functionWasPassedAsArgument (framePushed ("*" +:+ g) s0) = false /\
            (exists frame,
               functionTrackers (framePushed ("*" +:+ g) s0) !! ("*" +:+ g)
               = Some (tracker ++ [frame])) /\
            functionTrackers (framePushed ("*" +:+ g) s0) !! g
            = functionTrackers (state w) !! g).
  { intros s0 Hs0.
    destruct (framePushed_over (state w) s0 ("*" +:+ g) tracker Hs0)
      as (Hflag & Hframe & Hother).
    split; [done|]. split; [done|].
    apply Hother. intros Heq. by apply (star_name_differs g). }
  case_bool_decide; simpl.
  - destruct (Hover (state (snd (enterFunction ("*" +:+ g)
                                   (mkWorld flagged (trace w)))))) as (? & ? & ?);
      [done|]. done.
  - destruct (Hover (saveArgsInTransition params tracker
                       (cleanUpVariables
                          (state (snd (enterFunction ("*" +:+ g)
                                         (mkWorld flagged (trace w))))))))
      as (? & ? & ?); [done|]. done.
Qed.
End ArgumentWrapper.

Lemma wrapArgIfFunction_call_witness :
  let w := mkWorld (Demo.initialState 2 1 false) [] in
  let identity := VFunction (HostFunction 9) in
  wrapArgIfFunction (VNumber 3) = VNumber 3 /\
  callValue (wrapArgIfFunction identity) [VNumber 3] w
    = (Returned (VNumber 3),
       mkWorld (set_functionWasPassedAsArgument true (state w)) []) /\
  callValue (wrapArgIfFunction (wrapArgIfFunction identity)) [VNumber 3] w
    = callValue (wrapArgIfFunction identity) [VNumber 3] w.
Proof.
  intros w identity.
  destruct (wrapArgIfFunction_call (H := Demo.host) (VNumber 3) [VNumber 3] w)
    as [Hplain _].
  destruct (wrapArgIfFunction_call (H := Demo.host) identity [VNumber 3] w)
    as [_ Hwrapped].
  destruct Hwrapped as (_ & Hcall & Htwice); [reflexivity|].
  split; [apply Hplain; reflexivity|]. split; [|exact Htwice].
  rewrite Hcall. reflexivity.
Defined.

Lemma wrapper_flag_reaches_next_preFunction_witness :
  let s := set_functionTrackers {["g" := [0; 1]%nat]} (Demo.initialState 2 1 false) in
  let w := mkWorld s [] in
  let called := callValue (wrapArgIfFunction (VFunction nothingFunction)) [] w in
  let entered := preFunction 5 "g" [] (snd called) in
  trace (snd entered) = [] /\
  (exists frame, functionTrackers (state (snd entered)) !! "*g" = Some ([] ++ [frame])) /\
  functionTrackers (state (snd entered)) !! "g" = Some [0; 1]%nat.
Proof.
  intros s w called entered.
  destruct (wrapper_flag_reaches_next_preFunction (H := Demo.host) 5 "g" [] [] w eq_refl)
    as (_ & _ & _ & Htrace & Hstar & Hplain & _).
  split; [exact Htrace|]. split; [exact Hstar | exact Hplain].
Defined.

(** ** The dispatch policy, once more *)

Section DispatchSchedule.
Context `{Host}.

Lemma dispatchIfMeetsThreshold_hit fuel stackPositions name w (k : nat) :
  1 <= threshold (state w) ->
  (length stackPositions < fuel)%nat ->
  Z.of_nat (length stackPositions) = threshold (state w) * 2 ^ Z.of_nat k ->
  dispatchIfMeetsThreshold fuel stackPositions name w
  = checked stackPositions name
      (mkWorld (state w) (trace w ++ [EvDispatch stackPositions name])).
Proof.
  intros Hpos Hfuel Hk.
  unfold dispatchIfMeetsThreshold, bind, emit, getState. simpl.
  apply (dispatchLoop_hit fuel _ _ _
           (mkWorld (state w) (trace w ++ [EvDispatch stackPositions name])) k);
    [done | simpl; lia | done].
Qed.

Lemma dispatchIfMeetsThreshold_miss fuel stackPositions name w :
  1 <= threshold (state w) ->
  (length stackPositions < fuel)%nat ->
  (forall k : nat,
     Z.of_nat (length stackPositions) <> threshold (state w) * 2 ^ Z.of_nat k) ->
  dispatchIfMeetsThreshold fuel stackPositions name w
  = (Returned tt, mkWorld (state w) (trace w ++ [EvDispatch stackPositions name])).
Proof.
  intros Hpos Hfuel Hk.
  unfold dispatchIfMeetsThreshold, bind, emit, getState. simpl.
  apply dispatchLoop_miss; [done | simpl; lia | done].
Qed.

Lemma dispatchLoop_nonpositive fuel : forall checkpoint stackPositions name w,
  checkpoint <= 0 ->
  forall u, fst (dispatchLoop fuel checkpoint stackPositions name w) <> Returned u.
Proof.
  induction fuel as [|fuel IH]; intros checkpoint stackPositions name w Hneg u; [done|].
  simpl. destruct (Z.leb_spec checkpoint (Z.of_nat (length stackPositions))); [|lia].
  destruct (Z.of_nat (length stackPositions) =? checkpoint).
  - unfold bind at 1, bind at 1, emit. simpl.
    destruct (checkForInfiniteLoop stackPositions (state w) name) as [[e|] h]; [done|].
    apply IH. lia.
  - unfold bind at 1. simpl. apply IH. lia.
Qed.

(** X5: with a threshold of zero or less the loop of
    [dispatchIfMeetsThreshold] never ends by itself: whatever the bound on
    its iterations, the call does not return; it can only end by the
    analysis throwing. *)
Theorem dispatch_nonpositive_threshold_never_returns
    (fuel : nat) (stackPositions : list nat) (name : option string) (w : World) :
  threshold (state w) <= 0 ->
  fst (dispatchIfMeetsThreshold fuel stackPositions name w) <> Returned tt /\
  (fst (dispatchIfMeetsThreshold fuel stackPositions name w) = OutOfFuel \/
   exists e sp st n,
     fst (checkForInfiniteLoop sp st n) = Some e /\
     fst (dispatchIfMeetsThreshold fuel stackPositions name w) = Thrown e).
Proof.
  intros Hneg. unfold dispatchIfMeetsThreshold, bind, emit, getState. simpl.
  set (w1 := mkWorld (state w) (trace w ++ [EvDispatch stackPositions name])).
  split; [by apply dispatchLoop_nonpositive|].
  generalize (threshold (state w)) Hneg w1. clear.
  induction fuel as [|fuel IH]; intros checkpoint Hneg w1; [by left|].
  simpl. destruct (Z.leb_spec checkpoint (Z.of_nat (length stackPositions))); [|lia].
  destruct (Z.of_nat (length stackPositions) =? checkpoint).
  - unfold bind at 1 3, bind at 1 2, emit. simpl.
    destruct (checkForInfiniteLoop stackPositions (state w1) name) as [[e|] h] eqn:Hcheck.
    + right. exists e, stackPositions, (state w1), name. by rewrite Hcheck.
    + apply IH. lia.
  - unfold bind at 1 2. simpl. apply IH. lia.
Qed.

Lemma dispatchLoop_logarithmic (n : nat) : forall checkpoint stackPositions name w,
  1 <= checkpoint ->
  Z.of_nat (length stackPositions) < checkpoint * 2 ^ Z.of_nat n ->
  fst (dispatchLoop (S n) checkpoint stackPositions name w) <> OutOfFuel.
Proof.
  induction n as [|n IH]; intros checkpoint stackPositions name w Hpos Hlt.
  - rewrite dispatchLoop_past; [done|]. simpl in Hlt. lia.
  - cbn [dispatchLoop].
    destruct (Z.leb_spec checkpoint (Z.of_nat (length stackPositions))); [|done].
    assert (Hnext : Z.of_nat (length stackPositions) < checkpoint * 2 * 2 ^ Z.of_nat n).
    { rewrite Nat2Z.inj_succ, Z.pow_succ_r in Hlt by lia. lia. }
    destruct (Z.of_nat (length stackPositions) =? checkpoint).
    + unfold bind at 1, bind at 1, emit. simpl.
      destruct (checkForInfiniteLoop stackPositions (state w) name) as [[e|] h]; [done|].
      apply IH; [lia | done].
    + unfold bind at 1. simpl. apply IH; [lia | done].
Qed.

(** X6: the loop of [dispatchIfMeetsThreshold] makes a logarithmic number
    of iterations: with a threshold of at least one, [n + 1] iterations are
    enough as soon as the threshold times [2 ^ n] exceeds the length of the
    history. *)
Theorem dispatch_logarithmic_iterations
    (n : nat) (stackPositions : list nat) (name : option string) (w : World) :
  1 <= threshold (state w) ->
  Z.of_nat (length stackPositions) < threshold (state w) * 2 ^ Z.of_nat n ->
  fst (dispatchIfMeetsThreshold (S n) stackPositions name w) <> OutOfFuel.
Proof.
  intros Hpos Hlt. unfold dispatchIfMeetsThreshold, bind, emit, getState.
  cbn [state trace fst snd].
  apply (dispatchLoop_logarithmic n (threshold (state w)) stackPositions name
           (mkWorld (state w) (trace w ++ [EvDispatch stackPositions name])));
    assumption.
Qed.
End DispatchSchedule.

Lemma dispatch_nonpositive_threshold_never_returns_witness :
  let w := mkWorld (Demo.initialState 0 1 false) [] in
  fst (dispatchIfMeetsThreshold 50 [] None w) = OutOfFuel /\
  fst (dispatchIfMeetsThreshold 50 [3; 4]%nat None w) <> Returned tt.
Proof.
  intros w. split; [vm_compute; reflexivity|].
  apply (dispatch_nonpositive_threshold_never_returns (H := Demo.host) 50 [3; 4]%nat None w).
  simpl. lia.
Defined.

Lemma dispatch_logarithmic_iterations_witness :
  let w := mkWorld (Demo.initialState 2 1 false) [] in
  fst (dispatchIfMeetsThreshold 3 [0; 1; 2; 3; 4]%nat None w) <> OutOfFuel.
Proof.
  intros w.
  apply (dispatch_logarithmic_iterations (H := Demo.host) 2 [0; 1; 2; 3; 4]%nat None w);
    simpl; lia.
Defined.

(** ** Loop iterations *)

Section LoopIteration.
Context `{Host}.

(** The end of [postLoop]: the variables are cleaned up, a frame is taken
    and pushed on the innermost tracker. *)
Lemma postLoop_unfold fuel ignoreMe w :
  postLoop fuel ignoreMe w =
  if hasTimedOut (state w) then (Thrown (Error "timeout"), w)
  else match loopStack (state w) with
       | [] => (Thrown (TypeError "previousIterations is undefined"), w)
       | top :: _ =>
           match dispatchIfMeetsThreshold fuel (removelast top) None w with
           | (Returned _, wd) =>
               let cleaned := cleanUpVariables (state wd) in
               let framed := set_hidden (snd (newStackFrameHidden cleaned)) cleaned in
               let frame := fst (newStackFrameHidden cleaned) in
               (Returned ignoreMe,
                mkWorld
                  match loopStack framed with
                  | inner :: rest => set_loopStack ((inner ++ [frame]) :: rest) framed
                  | [] => framed
                  end (trace wd))
           | (Thrown e, wd) => (Thrown e, wd)
           | (OutOfFuel, wd) => (OutOfFuel, wd)
           end
       end.
Proof.
  unfold postLoop, checkTimeout, bind, getState, throw, ret. simpl.
  destruct (hasTimedOut (state w)); simpl; [done|].
  destruct (loopStack (state w)) as [|top rest]; [done|].
  destruct (dispatchIfMeetsThreshold fuel (removelast top) None w) as [[[]| e |] wd];
    try done.
  unfold modifyState, newStackFrame. simpl.
  by destruct (newStackFrameHidden (cleanUpVariables (state wd))).
Qed.

(** X7: [postLoop] throws the timeout error, touching nothing, when the
    budget is spent; outside any loop it throws a type error, touching
    nothing.  Inside a loop it runs the dispatch policy, with no function
    name, on the innermost tracker without its last frame, and ends as the
    policy does when that throws; when the policy returns, [postLoop]
    returns the value it was given, one new frame is the last of the
    innermost tracker, and the outer trackers and the function trackers are
    as before. *)
Theorem postLoop_cases (fuel : nat) (ignoreMe : value) (w : World) :
  let r := fst (postLoop fuel ignoreMe w) in
  let w' := snd (postLoop fuel ignoreMe w) in
  (hasTimedOut (state w) = true -> r = Thrown (Error "timeout") /\ w' = w) /\
  (hasTimedOut (state w) = false -> loopStack (state w) = [] ->
     (exists msg, r = Thrown (TypeError msg)) /\ w' = w) /\
  (hasTimedOut (state w) = false ->
   forall top rest, loopStack (state w) = top :: rest ->
     let dispatched := dispatchIfMeetsThreshold fuel (removelast top) None w in
     trace w' = trace (snd dispatched) /\
     (forall e, fst dispatched = Thrown e -> r = Thrown e /\ w' = snd dispatched) /\
     (fst dispatched = Returned tt ->
        r = Returned ignoreMe /\
        (exists frame, loopStack (state w') = (top ++ [frame]) :: rest) /\
        functionTrackers (state w') = functionTrackers (state w))).
Proof.
  intros r w'. subst r w'. rewrite postLoop_unfold.
  destruct (hasTimedOut (state w)); [split; [done|split; discriminate]|].
  split; [discriminate|]. split.
  - intros _ ->. split; [by eexists | done].
  - intros _ top rest Hstack. rewrite Hstack. simpl.
    pose proof (dispatchIfMeetsThreshold_sameFields fuel (removelast top) None w) as Hsame.
    destruct (dispatchIfMeetsThreshold fuel (removelast top) None w) as [[[]| e |] wd];
      simpl in *.
    + split; [done|]. split; [discriminate|]. intros _.
      rewrite Hsame. simpl. rewrite Hstack. simpl.
      split; [done|]. split; [by eexists | done].
    + split; [done|]. split; [|discriminate]. by intros e' [= <-].
    + split; [done|]. split; discriminate.
Qed.

(** X8: inside a loop, with the budget not spent, a threshold of at least
    one and enough fuel, [postLoop] runs the analysis exactly when the
    innermost tracker, without its last frame, holds the threshold times a
    power of two frames; when it does not hold that many, [postLoop]
    returns the value it was given having run no analysis. *)
Theorem postLoop_schedule
    (fuel : nat) (ignoreMe : value) (w : World) (top : list nat) (rest : list (list nat)) :
  hasTimedOut (state w) = false ->
  loopStack (state w) = top :: rest ->
  1 <= threshold (state w) ->
  (length (removelast top) < fuel)%nat ->
  let history := removelast top in
  let w' := snd (postLoop fuel ignoreMe w) in
  ((exists k : nat, Z.of_nat (length history) = threshold (state w) * 2 ^ Z.of_nat k) ->
     trace w' = trace w ++ [EvDispatch history None; EvCheck history None]) /\
  (~ (exists k : nat, Z.of_nat (length history) = threshold (state w) * 2 ^ Z.of_nat k) ->
     fst (postLoop fuel ignoreMe w) = Returned ignoreMe /\
     trace w' = trace w ++ [EvDispatch history None]).
Proof.
  intros Htimeout Hstack Hpos Hfuel history w'. subst w'.
  rewrite postLoop_unfold, Htimeout, Hstack. fold history. split.
  - intros [k Hk].
    rewrite (dispatchIfMeetsThreshold_hit fuel history None w k) by done.
    unfold checked. simpl.
    destruct (checkForInfiniteLoop history (state w) None) as [[e|] h]; simpl;
      by rewrite <- app_assoc.
  - intros Hnone.
    rewrite dispatchIfMeetsThreshold_miss; [done | done | done |].
    intros k Hk. apply Hnone. by exists k.
Qed.
End LoopIteration.

Lemma postLoop_cases_witness :
  let s := set_loopStack [[0; 1; 2]%nat; [7]%nat] (Demo.initialState 2 1 false) in
  let w := mkWorld s [] in
  (exists msg,
     fst (postLoop 5 (VNumber 1) (mkWorld (Demo.initialState 2 1 false) []))
     = Thrown (TypeError msg)) /\
  fst (postLoop 5 (VNumber 1) (mkWorld (Demo.initialState 2 1 true) []))
    = Thrown (Error "timeout") /\
  fst (postLoop 5 (VNumber 1) w) = Returned (VNumber 1) /\
  (exists frame,
     loopStack (state (snd (postLoop 5 (VNumber 1) w)))
     = ([0; 1; 2]%nat ++ [frame]) :: [[7]%nat]).
Proof.
  intros s w.
  pose proof (postLoop_cases (H := Demo.host) 5 (VNumber 1)
                (mkWorld (Demo.initialState 2 1 false) [])) as Houtside.
  pose proof (postLoop_cases (H := Demo.host) 5 (VNumber 1)
                (mkWorld (Demo.initialState 2 1 true) [])) as Hspent.
  pose proof (postLoop_cases (H := Demo.host) 5 (VNumber 1) w) as Hinside.
  cbv zeta in Houtside, Hspent, Hinside.
  destruct Houtside as (_ & Houtside & _).
  destruct (Houtside eq_refl eq_refl) as [Hmsg _].
  destruct Hspent as (Hspent & _). destruct (Hspent eq_refl) as [Htimeout _].
  destruct Hinside as (_ & _ & Hinside).
  destruct (Hinside eq_refl [0; 1; 2]%nat [[7]%nat] eq_refl) as (_ & _ & Hreturned).
  destruct Hreturned as (Hr & Hframe & _); [vm_compute; reflexivity|].
  split; [exact Hmsg|]. split; [exact Htimeout|]. split; [exact Hr | exact Hframe].
Defined.

Lemma postLoop_schedule_witness :
  let inLoop (top : list nat) :=
    mkWorld (set_loopStack [top] (Demo.initialState 2 1 false)) [] in
  trace (snd (postLoop 5 VUndefined (inLoop [0; 1; 2]%nat)))
    = [] ++ [EvDispatch [0; 1]%nat None; EvCheck [0; 1]%nat None] /\
  trace (snd (postLoop 5 VUndefined (inLoop [0; 1; 2; 3]%nat)))
    = [] ++ [EvDispatch [0; 1; 2]%nat None].
Proof.
  intros inLoop.
  assert (Hodd : forall k : nat, 3 <> 2 * 2 ^ Z.of_nat k).
  { intros [|k]; [simpl; lia|]. rewrite Nat2Z.inj_succ, Z.pow_succ_r by lia. lia. }
  split.
  - apply (postLoop_schedule (H := Demo.host) 5 VUndefined (inLoop [0; 1; 2]%nat)
             [0; 1; 2]%nat []); [reflexivity | reflexivity | simpl; lia | simpl; lia |].
    exists 0%nat. reflexivity.
  - apply (postLoop_schedule (H := Demo.host) 5 VUndefined (inLoop [0; 1; 2; 3]%nat)
             [0; 1; 2; 3]%nat []); [reflexivity | reflexivity | simpl; lia | simpl; lia |].
    intros [k Hk]. exact (Hodd k Hk).
Defined.

Section FirstIteration.
Context `{Host}.

Lemma no_power_is_zero (t : Z) (k : nat) : 1 <= t -> 0 <> t * 2 ^ Z.of_nat k.
Proof.
  intros Ht. assert (1 <= 2 ^ Z.of_nat k) by (apply Z.pow_le_mono_r with (b := 0); lia).
  nia.
Qed.

(** X9: [enterLoop] opens a tracker holding one frame in front of the
    loop stack, and the first [postLoop] of a loop just entered never runs
    the analysis when the threshold is at least one: it dispatches on the
    empty history, returns the value it was given and leaves two frames in
    the tracker of the loop, the enclosing loops being as before. *)
Theorem first_iteration_runs_no_analysis (fuel : nat) (ignoreMe : value) (w : World) :
  let entered := snd (enterLoop w) in
  let iterated := postLoop (S fuel) ignoreMe entered in
  hasTimedOut (state entered) = false ->
  1 <= threshold (state w) ->
  (exists frame, loopStack (state entered) = [frame] :: loopStack (state w)) /\
  fst iterated = Returned ignoreMe /\
  trace (snd iterated) = trace w ++ [EvDispatch [] None] /\
  (exists first second,
     loopStack (state (snd iterated)) = [first; second] :: loopStack (state w)).
Proof.
  intros entered iterated Htimeout Hpos.
  assert (Hentered : exists frame h,
            entered = mkWorld (set_loopStack ([frame] :: loopStack (state w))
                                 (set_hidden h (state w))) (trace w)).
  { subst entered. unfold enterLoop, bind, newStackFrame, modifyState. simpl.
    destruct (newStackFrameHidden (state w)) as [frame h]. by exists frame, h. }
  destruct Hentered as (frame & h & Hentered).
  split; [exists frame; by rewrite Hentered|].
  subst iterated. rewrite postLoop_unfold, Htimeout.
  rewrite Hentered. simpl.
  rewrite dispatchIfMeetsThreshold_miss;
    [| done | simpl; lia | intros k; simpl; by apply no_power_is_zero].
  simpl. split; [done|]. split; [done|]. by eexists _, _.
Qed.
End FirstIteration.

Lemma first_iteration_runs_no_analysis_witness :
  let w := mkWorld (Demo.initialState 2 1 false) [] in
  let iterated := postLoop 1 (VBool true) (snd (enterLoop w)) in
  fst iterated = Returned (VBool true) /\
  trace (snd iterated) = [] ++ [EvDispatch [] None] /\
  (exists first second, loopStack (state (snd iterated)) = [first; second] :: []).
Proof.
  intros w iterated.
  destruct (first_iteration_runs_no_analysis (H := Demo.host) 0 (VBool true) w)
    as (_ & Hr & Htrace & Hstack); [reflexivity | simpl; lia |].
  split; [exact Hr|]. split; [exact Htrace | exact Hstack].
Defined.

(** ** Function entries *)

Section FunctionSchedule.
Context `{Host}.

(** X10: when a function is entered directly (the flag is off), with the
    budget not spent, invocations recorded already, a threshold of at least
    one and enough fuel, [preFunction] runs the analysis, under the name of
    the function, exactly when the tracker without its last frame holds the
    threshold times a power of two frames; when it does not hold that many,
    [preFunction] returns having run no analysis. *)
Theorem preFunction_schedule
    (fuel : nat) (name : string) (args : list (string * value)) (w : World) :
  let tracker := default [] (functionTrackers (state w) !! name) in
  let history := removelast tracker in
  let w' := snd (preFunction fuel name args w) in
  hasTimedOut (state w) = false ->
  functionWasPassedAsArgument (state w) = false ->
  tracker <> [] ->
  1 <= threshold (state w) ->
  (length history < fuel)%nat ->
  ((exists k : nat, Z.of_nat (length history) = threshold (state w) * 2 ^ Z.of_nat k) ->
     trace w' = trace w ++ [EvDispatch history (Some name); EvCheck history (Some name)]) /\
  (~ (exists k : nat, Z.of_nat (length history) = threshold (state w) * 2 ^ Z.of_nat k) ->
     fst (preFunction fuel name args w) = Returned tt /\
     trace w' = trace w ++ [EvDispatch history (Some name)]).
Proof.
  intros tracker history w' Htimeout Hflag Hrecorded Hpos Hfuel. subst w'.
  rewrite preFunction_unfold, Htimeout, Hflag. fold tracker.
  rewrite bool_decide_eq_false_2 by done. fold history.
  set (prepared := saveArgsInTransition args tracker _).
  split.
  - intros [k Hk].
    rewrite (dispatchIfMeetsThreshold_hit fuel history (Some name)
               (mkWorld prepared (trace w)) k) by done.
    unfold checked. simpl.
    destruct (checkForInfiniteLoop history prepared (Some name)) as [[e|] h]; simpl;
      by rewrite <- app_assoc.
  - intros Hnone.
    rewrite dispatchIfMeetsThreshold_miss; [done | done | done |].
    intros k Hk. apply Hnone. by exists k.
Qed.
End FunctionSchedule.

Lemma preFunction_schedule_witness :
  let called (tracker : list nat) :=
    mkWorld (set_functionTrackers {["f" := tracker]} (Demo.initialState 2 1 false)) [] in
  trace (snd (preFunction 5 "f" [] (called [0; 1; 2]%nat)))
    = [] ++ [EvDispatch [0; 1]%nat (Some "f"); EvCheck [0; 1]%nat (Some "f")] /\
  trace (snd (preFunction 5 "f" [] (called [0; 1]%nat)))
    = [] ++ [EvDispatch [0]%nat (Some "f")].
Proof.
  intros called.
  assert (Hodd : forall k : nat, 1 <> 2 * 2 ^ Z.of_nat k).
  { intros k. assert (1 <= 2 ^ Z.of_nat k) by (apply Z.pow_le_mono_r with (b := 0); lia).
    lia. }
  split.
  - apply (preFunction_schedule (H := Demo.host) 5 "f" [] (called [0; 1; 2]%nat));
      [reflexivity | reflexivity | vm_compute; discriminate | simpl; lia
      | vm_compute; lia |].
    exists 0%nat. vm_compute. reflexivity.
  - apply (preFunction_schedule (H := Demo.host) 5 "f" [] (called [0; 1]%nat));
      [reflexivity | reflexivity | vm_compute; discriminate | simpl; lia
      | vm_compute; lia |].
    intros [k Hk]. apply (Hodd k). exact Hk.
Defined.

(** ** The null test *)

Section NullTest.
Context `{Host}.

(** X11: the null test answers from the concrete value and changes nothing
    whenever no state is passed, as when the entry of the builtin table is
    called on one argument, or the value is not a stream; this holds in
    stream mode too. *)
Theorem is_null_plain_answer
    (fuel : nat) (oldBuiltins : gmap string value) (original v : value) (w : World) :
  let answer := (Returned (VBool (list_is_null (shallowConcretize v))), w) in
  oldBuiltins !! "is_null" = Some original ->
  (exists entry,
     prepareBuiltins oldBuiltins !! "is_null" = Some entry /\
     callValue entry [v] w = answer) /\
  is_null fuel v false w = answer /\
  (isFunction (tailOf (shallowConcretize v)) = false -> is_null fuel v true w = answer).
Proof.
  intros answer Hold. split; [|split].
  - exists (VFunction is_null_special). split.
    + rewrite prepareBuiltins_lookup by discriminate. by rewrite Hold.
    + reflexivity.
  - reflexivity.
  - intros Htail. unfold is_null. by rewrite Htail.
Qed.

(** X12: stream mode belongs to one function.  A null test of a stream made
    in function [f] while stream mode is on for another function [g] does
    not probe the stream: it forces nothing, returns, leaves stream mode on
    and counts for [f]; the mode passes to [f] exactly when the count of
    [f] exceeds [streamThreshold]. *)
Theorem is_null_in_another_function
    (fuel : nat) (maybeHybrid : value) (w : World) (g : string) :
  let f := getLastFunctionName (state w) in
  let count := default 1 (streamCounts (state w) !! f) in
  let w' := snd (is_null fuel maybeHybrid true w) in
  isFunction (tailOf (shallowConcretize maybeHybrid)) = true ->
  streamMode (state w) = true ->
  streamLastFunction (state w) = Some g ->
  g <> f ->
  fst (is_null fuel maybeHybrid true w) = Returned VUndefined /\
  trace w' = trace w /\
  streamMode (state w') = true /\
  streamCounts (state w') !! f = Some (count + 1) /\
  streamCounts (state w') !! g = streamCounts (state w) !! g /\
  streamLastFunction (state w')
  = if count >? streamThreshold (state w) then Some f else Some g.
Proof.
  intros f count w' Hstream Hmode Hlast Hne. subst w'.
  rewrite is_null_counting; [|done|].
  - fold f. fold count. simpl.
    rewrite lookup_insert_eq, lookup_insert_ne by done.
    destruct (count >? streamThreshold (state w)); simpl; by rewrite ?Hmode, ?Hlast.
  - fold f. rewrite Hlast, bool_decide_eq_false_2 by congruence. apply andb_false_r.
Qed.

Lemma nullTests_counted (Hname : nameFromHidden) fuel maybeHybrid :
  isFunction (tailOf (shallowConcretize maybeHybrid)) = true ->
  forall n w,
    streamMode (state w) = false ->
    let f := getLastFunctionName (state w) in
    let count := default 1 (streamCounts (state w) !! f) in
    count + Z.of_nat (S n) <= streamThreshold (state w) + 2 ->
    nullTests fuel maybeHybrid (S n) w
    = (Returned tt, mkWorld (countedState f count (S n) (state w)) (trace w)).
Proof.
  intros Hstream n. induction n as [|n IH]; intros w Hmode f count Hle.
  - cbn [nullTests]. unfold bind at 1. rewrite is_null_counting; [|done|by rewrite Hmode].
    fold f. fold count. unfold ret, countedState.
    replace (count + Z.of_nat 1 - 1) with count by lia.
    by replace (count + Z.of_nat 1) with (count + 1) by lia.
  - change (nullTests fuel maybeHybrid (S (S n)) w)
      with ((is_null fuel maybeHybrid true;;; nullTests fuel maybeHybrid (S n)) w).
    unfold bind at 1. rewrite is_null_counting; [|done|by rewrite Hmode].
    fold f. fold count.
    destruct (Z.gtb_spec count (streamThreshold (state w))) as [Hgt|Hsmall]; [lia|].
    set (w1 := mkWorld _ (trace w)).
    assert (Hf : getLastFunctionName (state w1) = f) by (by apply Hname).
    rewrite IH; [|done|].
    + rewrite Hf. subst w1. simpl. rewrite lookup_insert_eq. simpl.
      unfold countedState. simpl. rewrite insert_insert_eq.
      replace (count + 1 + Z.of_nat (S n)) with (count + Z.of_nat (S (S n))) by lia.
      by destruct (_ >? _).
    + rewrite Hf. subst w1. simpl. rewrite lookup_insert_eq. simpl. lia.
Qed.

(** X13: counting up to stream mode.  Starting with stream mode off and a
    count [c] for the function (1 when none is stored), null tests of a
    stream return, force nothing and add one to the count each, and stream
    mode is on for the function after the test that found the count above
    [streamThreshold], not before: after [n] tests it is on exactly when
    [c + n] has reached [streamThreshold + 2]. *)
Theorem stream_mode_after_counted_tests
    (fuel : nat) (maybeHybrid : value) (n : nat) (w : World) :
  let f := getLastFunctionName (state w) in
  let count := default 1 (streamCounts (state w) !! f) in
  let w' := snd (nullTests fuel maybeHybrid n w) in
  nameFromHidden ->
  isFunction (tailOf (shallowConcretize maybeHybrid)) = true ->
  streamMode (state w) = false ->
  (1 <= n)%nat ->
  count + Z.of_nat n <= streamThreshold (state w) + 2 ->
  fst (nullTests fuel maybeHybrid n w) = Returned tt /\
  trace w' = trace w /\
  streamCounts (state w') !! f = Some (count + Z.of_nat n) /\
  (streamMode (state w') = true <-> count + Z.of_nat n = streamThreshold (state w) + 2) /\
  (streamMode (state w') = true -> streamLastFunction (state w') = Some f).
Proof.
  intros f count w' Hname Hstream Hmode Hn Hle. subst w'.
  destruct n as [|n]; [lia|].
  rewrite (nullTests_counted Hname fuel maybeHybrid Hstream n w Hmode Hle).
  fold f. fold count. unfold countedState. simpl.
  rewrite lookup_insert_eq.
  split; [done|]. split; [done|]. split; [done|].
  destruct (Z.gtb_spec (count + Z.of_nat (S n) - 1) (streamThreshold (state w)));
    simpl.
  - split; [split; [lia | done] | done].
  - rewrite Hmode. split; [split; [discriminate | lia] | discriminate].
Qed.
End NullTest.

Lemma Demo_name_from_hidden : nameFromHidden (H := Demo.host).
Proof.
  intros s s' Hhidden.
  change (hd "" (Demo.functions (hidden s)) = hd "" (Demo.functions (hidden s'))).
  by rewrite Hhidden.
Qed.

Lemma is_null_plain_answer_witness :
  let old : gmap string value := {["is_null" := VFunction (HostFunction 8)]} in
  let w := mkWorld (Demo.probing 1 0) [] in
  (exists entry,
     prepareBuiltins old !! "is_null" = Some entry /\
     callValue entry [Demo.ones] w = (Returned (VBool false), w)) /\
  is_null 5 (VHybrid "value" VNull (Identifier "xs") None false) true w
    = (Returned (VBool true), w).
Proof.
  intros old w.
  destruct (is_null_plain_answer (H := Demo.host) 5 old (VFunction (HostFunction 8))
              Demo.ones w eq_refl) as (Hentry & _).
  destruct (is_null_plain_answer (H := Demo.host) 5 old (VFunction (HostFunction 8))
              (VHybrid "value" VNull (Identifier "xs") None false) w eq_refl)
    as (_ & _ & Hnull).
  split; [exact Hentry|]. apply Hnull. reflexivity.
Defined.

Lemma is_null_in_another_function_witness :
  let s := set_streamLastFunction (Some "produce")
             (set_streamMode true (Demo.consuming 1 5)) in
  let w := mkWorld s [] in
  fst (is_null 5 Demo.ones true w) = Returned VUndefined /\
  trace (snd (is_null 5 Demo.ones true w)) = [] /\
  streamCounts (state (snd (is_null 5 Demo.ones true w))) !! "consume" = Some 2 /\
  streamLastFunction (state (snd (is_null 5 Demo.ones true w))) = Some "produce".
Proof.
  intros s w.
  destruct (is_null_in_another_function (H := Demo.host) 5 Demo.ones w "produce")
    as (Hr & Htrace & _ & Hcount & _ & Hlast);
    [reflexivity | reflexivity | reflexivity | discriminate |].
  split; [exact Hr|]. split; [exact Htrace|]. split; [exact Hcount | exact Hlast].
Defined.

Lemma stream_mode_after_counted_tests_witness :
  let w := mkWorld (Demo.consuming 1 3) [] in
  (streamMode (state (snd (nullTests 5 Demo.ones 3 w))) = true -> False) /\
  streamCounts (state (snd (nullTests 5 Demo.ones 3 w))) !! "consume" = Some 4 /\
  streamMode (state (snd (nullTests 5 Demo.ones 4 w))) = true.
Proof.
  intros w.
  destruct (stream_mode_after_counted_tests (H := Demo.host) 5 Demo.ones 3 w
              Demo_name_from_hidden eq_refl eq_refl)
    as (_ & _ & Hcount & Hmode & _); [lia | vm_compute; discriminate |].
  destruct (stream_mode_after_counted_tests (H := Demo.host) 5 Demo.ones 4 w
              Demo_name_from_hidden eq_refl eq_refl)
    as (_ & _ & _ & Hmode' & _); [lia | vm_compute; discriminate |].
  split; [|split].
  - intros Hon. apply Hmode in Hon. vm_compute in Hon. discriminate.
  - exact Hcount.
  - apply Hmode'. vm_compute. reflexivity.
Defined.

(** ** Probing an endless stream *)

Section EndlessStream.
Context `{Host}.

(** X14: the probe budget is reached on an endless stream.  When every
    function of the host returns a further cell and leaves the threshold
    alone, [testIfInfiniteStream] on a cell of such a stream forces exactly
    [threshold + 1] tails (none when the threshold is negative) and then
    throws the timeout error. *)
Theorem testIfInfiniteStream_endless (fuel : nat) (stream : value) (w : World) :
  hostKeepsThreshold ->
  hostEndless ->
  isEndlessCell stream ->
  (Z.to_nat (threshold (state w) + 1) < fuel)%nat ->
  fst (testIfInfiniteStream fuel stream w) = Thrown (Error "timeout") /\
  exists forced,
    trace (snd (testIfInfiniteStream fuel stream w)) = trace w ++ map EvForce forced /\
    length forced = Z.to_nat (threshold (state w) + 1).
Proof.
  intros Hkeeps Hendless Hcell Hfuel. rewrite testIfInfiniteStream_unfold.
  destruct (streamLoop_endless Hkeeps Hendless fuel 0 stream w Hcell)
    as (forced & Hr & Htrace & Hlen); [by rewrite Z.sub_0_r|].
  rewrite Z.sub_0_r in Hlen.
  destruct (streamLoop fuel 0 stream w) as [[[]| e |] w1]; try discriminate.
  split; [done|]. by exists forced.
Qed.
End EndlessStream.

Lemma testIfInfiniteStream_endless_witness :
  let w := @mkWorld Endless.host (Demo.initialState 3 1 false) [] in
  fst (testIfInfiniteStream 6 Demo.ones w) = Thrown (Error "timeout") /\
  exists forced,
    trace (snd (testIfInfiniteStream 6 Demo.ones w)) = [] ++ map EvForce forced /\
    length forced = 4%nat.
Proof.
  intros w.
  apply (testIfInfiniteStream_endless (H := Endless.host) 6 Demo.ones w
           Endless_keeps_threshold Endless_is_endless).
  - split; [reflexivity|]. by exists 0%nat.
  - vm_compute. lia.
Defined.

(** ** The builtin table, once more *)

Section BuiltinNames.
Context `{Host}.

(** X15: the table that [prepareBuiltins] returns has the names of the
    table it is given and the name ['undefined'], and no other. *)
Theorem prepareBuiltins_names (oldBuiltins : gmap string value) :
  dom (prepareBuiltins oldBuiltins) = {["undefined"]} ∪ dom oldBuiltins.
Proof.
  apply set_eq. intros name.
  rewrite elem_of_union, elem_of_singleton, !elem_of_dom.
  destruct (decide (name = "undefined")) as [-> | Hne].
  - split; [by left|]. intros _. unfold prepareBuiltins.
    rewrite lookup_insert_eq. by eexists.
  - rewrite prepareBuiltins_lookup by done. rewrite fmap_is_Some. tauto.
Qed.

(** X16: a builtin that is not a function (a constant of the library) and
    has no entry in [builtinSpecialCases] is wrapped all the same: unless it
    is named ['undefined'], what the table holds for it is a function, and
    calling that function throws a type error and changes nothing. *)
Theorem prepareBuiltins_wraps_constants
    (oldBuiltins : gmap string value) (name : string) (constant : value)
    (args : list value) (w : World) :
  oldBuiltins !! name = Some constant ->
  isFunction constant = false ->
  name <> "undefined" ->
  builtinSpecialCases name = None ->
  exists wrapper,
    prepareBuiltins oldBuiltins !! name = Some wrapper /\
    isFunction wrapper = true /\
    wrapper <> constant /\
    exists msg, callValue wrapper args w = (Thrown (TypeError msg), w).
Proof.
  intros Hold Hconstant Hne Hnone. exists (VFunction (BuiltinWrapper constant)).
  split; [|split; [done|split]].
  - rewrite prepareBuiltins_lookup by done. by rewrite Hold, Hnone.
  - intros Heq. rewrite <- Heq in Hconstant. discriminate.
  - destruct constant; try discriminate Hconstant; by eexists.
Qed.
End BuiltinNames.

Lemma prepareBuiltins_wraps_constants_witness :
  let old : gmap string value := {["math_PI" := VNumber 3]} in
  let w := mkWorld (Demo.initialState 2 1 false) [] in
  exists wrapper,
    prepareBuiltins old !! "math_PI" = Some wrapper /\
    isFunction wrapper = true /\
    wrapper <> VNumber 3 /\
    exists msg, callValue wrapper [] w = (Thrown (TypeError msg), w).
Proof.
  intros old w.
  apply (prepareBuiltins_wraps_constants (H := Demo.host) old "math_PI" (VNumber 3) [] w);
    [reflexivity | reflexivity | discriminate | reflexivity].
Defined.

(** ** The driver, once more *)

Section DriverInputs.
Context `{Frontend}.

(** X4: the location the driver reports is the one tracked last.  When the
    run tracks two locations in a row and then raises a detection, the
    diagnostic carries the second location; and when the second is
    [undefined] the first is forgotten all the same, so that the
    diagnostic keeps the location the error came with. *)
Theorem driver_reports_last_location
    (code : string) (previousCodeStack : list string) (program : Program)
    (first second : option SourceLocation) (error : InfiniteLoopError) :
  parse code = Some program ->
  driverRun program previousCodeStack
  = (trackLoc first None;;; trackLoc second None;;; throw (InfiniteLoop error))
      (mkWorld newState []) ->
  testForInfiniteLoop code previousCodeStack
  = Returned (Some (match second with
                    | Some loc => setLocation (Some loc) error
                    | None => error
                    end)).
Proof.
  intros Hparse Hrun. unfold testForInfiniteLoop. rewrite Hparse.
  fold (driverRun program previousCodeStack). rewrite Hrun.
  unfold trackLoc, bind, modifyState, ret, throw. simpl. by destruct second.
Qed.
End DriverInputs.

Lemma driver_reports_last_location_witness :
  testForInfiniteLoop (H0 := Relocated.frontend) "anything" []
  = Returned (Some Relocated.raised) /\
  location Relocated.raised = Some Relocated.origin.
Proof.
  split; [|reflexivity].
  apply (driver_reports_last_location (H0 := Relocated.frontend) "anything" []
           "anything" (Some Demo.here) None Relocated.raised); reflexivity.
Defined.
